(** * swiper-zoom-view: the gesture classifier and the transform engine

    A shallow embedding of [SwiperViewComponent] (src/index.tsx of the
    package, the third document of [src/example/index.tsx]): the touch
    classifier ([onStartTouchResponder], [onMoveTouchResponder],
    [doChildStateChange], the responder handlers) and the transform engine
    ([doChangeScale], [doChildAnimation], [doChildReset], [doChildMove],
    [doChildPinchMove], [doChildDoubleTouch]), with [lastIndex].

    The instance fields of the component become one record, [Component];
    every method is a function from [Component] to [Component].  Calls into
    React Native ([Animated], [FlatList.scrollToIndex]) are recorded in an
    effect log, and the completion closure handed to [Animated....start] is
    the function [animationEnd], which the host invokes when it pleases.

    The definitions come first: numbers, data, the engine, the classifier,
    the handlers, the host, a few concrete gestures, and then the rest of
    the component: the list handlers with [componentDidUpdate], and
    [keyExtractor].  The properties follow: facts about binary64 and the
    rationals, lemmas about the engine, one theorem for each claim C1 to C10
    of the specification, and further properties of the code, X1 to X19. *)

From Stdlib Require Import ZArith QArith Qabs Qminmax Qround Floats Bool List.
From Stdlib Require Import Lia Lqa.
From Stdlib Require String DecimalString DecimalNat.
Import ListNotations.

Set Implicit Arguments.

(** ** JavaScript numbers

    The component computes with JavaScript [number]s.  The embedding is
    written once over the operations the source uses, and read at two number
    types: IEEE binary64 (what the program runs on, bit for bit) and the
    rationals (the arithmetic the geometry is designed in, free of rounding,
    infinities and NaN). *)

Class JSNumber (num : Type) : Type := {
  nadd : num -> num -> num;        (* a + b *)
  nsub : num -> num -> num;        (* a - b *)
  nmul : num -> num -> num;        (* a * b *)
  ndiv : num -> num -> num;        (* a / b *)
  nneg : num -> num;               (* -a *)
  Math_max : num -> num -> num;    (* Math.max(a, b) *)
  Math_min : num -> num -> num;    (* Math.min(a, b) *)
  Math_abs : num -> num;           (* Math.abs(a) *)
  nlt : num -> num -> bool;        (* a < b *)
  nseq : num -> num -> bool;       (* a === b *)
  (* the numeric literals of the source *)
  lit_0 : num;
  lit_1 : num;
  lit_2 : num;
  lit_5 : num;
  lit_300 : num;
  lit_0_5 : num;
  lit_1_3 : num
}.

(** [Math.sqrt] and [Math.pow(a, 2)] are used by the pinch geometry only;
    the rationals have no square root. *)
Class JSMath (num : Type) : Type := {
  Math_sqrt : num -> num;          (* Math.sqrt(a) *)
  Math_pow_2 : num -> num          (* Math.pow(a, 2) *)
}.

Declare Scope js_scope.
Delimit Scope js_scope with js.
Notation "a + b" := (nadd a b) : js_scope.
Notation "a - b" := (nsub a b) : js_scope.
Notation "a * b" := (nmul a b) : js_scope.
Notation "a / b" := (ndiv a b) : js_scope.
Notation "- a" := (nneg a) : js_scope.
Notation "a <? b" := (nlt a b) (at level 70, no associativity) : js_scope.
Notation "a >? b" := (nlt b a) (at level 70, no associativity) : js_scope.
Notation "a === b" := (nseq a b) (at level 70, no associativity) : js_scope.
Notation "a !== b" := (negb (nseq a b)) (at level 70, no associativity) : js_scope.

(** *** IEEE binary64 *)

Module F64.

(** [Math.max]: NaN when an argument is NaN, and [+0] above [-0]. *)
Definition max (a b : float) : float :=
  if PrimFloat.is_nan a || PrimFloat.is_nan b then PrimFloat.nan
  else if PrimFloat.ltb a b then b
  else if PrimFloat.ltb b a then a
  else if PrimFloat.get_sign a then b else a.

(** [Math.min]: NaN when an argument is NaN, and [-0] below [+0]. *)
Definition min (a b : float) : float :=
  if PrimFloat.is_nan a || PrimFloat.is_nan b then PrimFloat.nan
  else if PrimFloat.ltb a b then a
  else if PrimFloat.ltb b a then b
  else if PrimFloat.get_sign a then a else b.

#[global] Instance number : JSNumber float := {|
  nadd := PrimFloat.add;
  nsub := PrimFloat.sub;
  nmul := PrimFloat.mul;
  ndiv := PrimFloat.div;
  nneg := PrimFloat.opp;
  Math_max := max;
  Math_min := min;
  Math_abs := PrimFloat.abs;
  nlt := PrimFloat.ltb;
  nseq := PrimFloat.eqb;
  lit_0 := 0%float;
  lit_1 := 1%float;
  lit_2 := 2%float;
  lit_5 := 5%float;
  lit_300 := 300%float;
  lit_0_5 := 0.5%float;
  lit_1_3 := 0x1.4cccccccccccdp+0%float   (* the double nearest to 1.3 *)
|}.

(** [Math.pow(a, 2)] is read as the correctly rounded square. *)
#[global] Instance math : JSMath float := {|
  Math_sqrt := PrimFloat.sqrt;
  Math_pow_2 := fun a => PrimFloat.mul a a
|}.

End F64.

(** *** Exact rationals

    Division by zero does not occur in the theorems read at this type: the
    divisors that are not the literal [2] are the pinch distance (the
    zero-distance case is settled on binary64) and, in the list handlers,
    the width of the viewport, which their theorems take positive. *)

Module Exact.

Definition ltb (a b : Q) : bool :=
  match Qcompare a b with Lt => true | _ => false end.

#[global] Instance number : JSNumber Q := {|
  nadd := Qplus;
  nsub := Qminus;
  nmul := Qmult;
  ndiv := Qdiv;
  nneg := Qopp;
  Math_max := Qmax;
  Math_min := Qmin;
  Math_abs := Qabs;
  nlt := ltb;
  nseq := Qeq_bool;
  lit_0 := 0%Q;
  lit_1 := 1%Q;
  lit_2 := 2%Q;
  lit_5 := 5%Q;
  lit_300 := 300%Q;
  lit_0_5 := (1 # 2)%Q;
  lit_1_3 := (13 # 10)%Q
|}.

End Exact.

(** ** Data model *)

Section Model.

Variable num : Type.
Context {N : JSNumber num}.
Variable ItemT : Type.

Local Open Scope js_scope.

Record Position : Type := { x : num; y : num }.

Record PinchInfo : Type := { center : Position; distance : num }.

Inductive RefreshStatus : Type := START | END | ALL.

(** [SwiperViewState]: the React state shared with the FlatList. *)
Record SwiperViewState : Type := {
  refreshing : option RefreshStatus;
  data : list ItemT;
  currentIndex : Z
}.

Inductive ChildStatus : Type := SINGLE | DOUBLE | OTHER.

Definition ChildStatus_eqb (a b : ChildStatus) : bool :=
  match a, b with
  | SINGLE, SINGLE | DOUBLE, DOUBLE | OTHER, OTHER => true
  | _, _ => false
  end.

(** [ChildState]: the tagged union of the source, each variant with the
    [lastTouch] every state carries.  (A spread such as
    [{...this.childState, status: OTHER}] keeps the stale [initial], [last]
    and [timestamp] properties on the JavaScript object; the declared type
    of the OTHER variant has none and no code reads them, every transition
    into SINGLE or DOUBLE from another status writing all three.) *)
Inductive ChildState : Type :=
| StDouble (initial last : PinchInfo) (timestamp lastTouch : num)
| StSingle (initial last : Position) (timestamp lastTouch : num)
| StOther (lastTouch : num).

Definition status (s : ChildState) : ChildStatus :=
  match s with
  | StDouble _ _ _ _ => DOUBLE
  | StSingle _ _ _ _ => SINGLE
  | StOther _ => OTHER
  end.

Definition lastTouch (s : ChildState) : num :=
  match s with
  | StDouble _ _ _ t => t
  | StSingle _ _ _ t => t
  | StOther t => t
  end.

(** [s.lastTouch = v], the assignment to a property of the state object. *)
Definition set_lastTouch (v : num) (s : ChildState) : ChildState :=
  match s with
  | StDouble i l ts _ => StDouble i l ts v
  | StSingle i l ts _ => StSingle i l ts v
  | StOther _ => StOther v
  end.

Definition DOUBLE_TOUCH_THRES : num := lit_300.
Definition MAX_ZOOM : num := lit_5.
Definition DEFAULT_ZOOM : num := lit_2.
Definition MIN_ZOOM : num := lit_0_5.
Definition MAX_ZOOM_RESET : num := lit_1_3.
Definition MIN_ZOOM_RESET : num := lit_0.
Definition SOFT_ANIMIATION_TIME : num := lit_300.

Definition positionMult (input : Position) (value : num) : Position :=
  {| x := x input * value; y := y input * value |}.

Record ViewPort : Type := { width : num; height : num }.

(** The two closures the source passes to [doChildAnimation] as
    [callback]: [() => { }] and [() => { this.childDoingZoom = false }]. *)
Inductive Callback : Type := cb_noop | cb_clearZoom.

(** Calls into React Native, in the order they are made. *)
Inductive Effect : Type :=
| ScrollToIndex (index : Z) (animated : bool)
| StopScaleAnimation          (* this.scaleAnimated.stopAnimation() *)
| StopTransformAnimation      (* this.transformAnimated.stopAnimation() *)
| StartAnimation (duration toScale : num) (toValue : Position)
                 (callback : Callback).

(** The private fields of [SwiperViewComponent], the React state, and the
    log of effects (newest first). *)
Record Component : Type := {
  doingChildAnimation : bool;
  viewPort : ViewPort;
  absolutePosition : Position;
  scaleTarget : num;
  transformBase : Position;
  childState : ChildState;
  childDoingZoom : bool;
  state : SwiperViewState;
  effects : list Effect
}.

Definition set_doingChildAnimation (v : bool) (c : Component) : Component :=
  {| doingChildAnimation := v; viewPort := viewPort c;
     absolutePosition := absolutePosition c; scaleTarget := scaleTarget c;
     transformBase := transformBase c; childState := childState c;
     childDoingZoom := childDoingZoom c; state := state c;
     effects := effects c |}.

Definition set_scaleTarget (v : num) (c : Component) : Component :=
  {| doingChildAnimation := doingChildAnimation c; viewPort := viewPort c;
     absolutePosition := absolutePosition c; scaleTarget := v;
     transformBase := transformBase c; childState := childState c;
     childDoingZoom := childDoingZoom c; state := state c;
     effects := effects c |}.

Definition set_transformBase (v : Position) (c : Component) : Component :=
  {| doingChildAnimation := doingChildAnimation c; viewPort := viewPort c;
     absolutePosition := absolutePosition c; scaleTarget := scaleTarget c;
     transformBase := v; childState := childState c;
     childDoingZoom := childDoingZoom c; state := state c;
     effects := effects c |}.

Definition set_childState (v : ChildState) (c : Component) : Component :=
  {| doingChildAnimation := doingChildAnimation c; viewPort := viewPort c;
     absolutePosition := absolutePosition c; scaleTarget := scaleTarget c;
     transformBase := transformBase c; childState := v;
     childDoingZoom := childDoingZoom c; state := state c;
     effects := effects c |}.

Definition set_childDoingZoom (v : bool) (c : Component) : Component :=
  {| doingChildAnimation := doingChildAnimation c; viewPort := viewPort c;
     absolutePosition := absolutePosition c; scaleTarget := scaleTarget c;
     transformBase := transformBase c; childState := childState c;
     childDoingZoom := v; state := state c;
     effects := effects c |}.

Definition emit (e : Effect) (c : Component) : Component :=
  {| doingChildAnimation := doingChildAnimation c; viewPort := viewPort c;
     absolutePosition := absolutePosition c; scaleTarget := scaleTarget c;
     transformBase := transformBase c; childState := childState c;
     childDoingZoom := childDoingZoom c; state := state c;
     effects := e :: effects c |}.

(** The constructor: the fields as it initialises them. *)
Definition construct (w h : num) (initialData : list ItemT)
    (initialScrollIndex : Z) : Component :=
  {| doingChildAnimation := false;
     viewPort := {| width := w; height := h |};
     absolutePosition := {| x := lit_0; y := lit_0 |};
     scaleTarget := lit_1;
     transformBase := {| x := lit_0; y := lit_0 |};
     childState := StOther lit_0;
     childDoingZoom := false;
     state := {| refreshing := None; data := initialData;
                 currentIndex := initialScrollIndex |};
     effects := [] |}.

(** ** Transform engine *)

(** [doChangeScale(updateDisposition, updateScale, updateCenter?)] *)
Definition doChangeScale (updateDisposition : Position) (updateScale : num)
    (updateCenter : option Position) (c : Component) : Component :=
  let newScale := scaleTarget c * updateScale in
  let origDisposition := transformBase c in
  let centerToCenterDisposition :=
    match updateCenter with
    | Some uc => {| x := x uc - x origDisposition;
                    y := y uc - y origDisposition |}
    | None => {| x := lit_0; y := lit_0 |}
    end in
  let newDisposition := positionMult updateDisposition lit_1 in
  let newCenterDisposition :=
    positionMult centerToCenterDisposition (lit_1 - updateScale) in
  let disposition :=
    {| x := x origDisposition + x newDisposition + x newCenterDisposition;
       y := y origDisposition + y newDisposition + y newCenterDisposition |} in
  set_scaleTarget newScale (set_transformBase disposition c).

(** [doChildAnimation(timing, callback = () => { }, override = false)] *)
Definition doChildAnimation (timing : num) (callback : Callback)
    (override : bool) (c : Component) : Component :=
  if doingChildAnimation c && negb override then c
  else
    let c := if override
             then emit StopTransformAnimation (emit StopScaleAnimation c)
             else c in
    let c := set_doingChildAnimation true c in
    let c := set_childDoingZoom true c in
    let boundScaleTarget :=
      Math_max (Math_min (scaleTarget c) MAX_ZOOM) MIN_ZOOM in
    let c := set_scaleTarget boundScaleTarget c in
    let boundDisposition := positionMult (transformBase c) lit_1 in
    let maxX := (width (viewPort c) * Math_abs (lit_1 - boundScaleTarget)) / lit_2 in
    let maxY := (height (viewPort c) * Math_abs (lit_1 - boundScaleTarget)) / lit_2 in
    let boundDisposition :=
      {| x := Math_max (Math_min (x boundDisposition) maxX) (- maxX);
         y := y boundDisposition |} in
    let boundDisposition :=
      {| x := x boundDisposition;
         y := Math_max (Math_min (y boundDisposition) maxY) (- maxY) |} in
    let c := set_transformBase boundDisposition c in
    emit (StartAnimation timing (scaleTarget c) (transformBase c) callback) c.

(** [doChildReset(timing)] *)
Definition doChildReset (timing : num) (c : Component) : Component :=
  let c := set_scaleTarget lit_1 c in
  let c := set_transformBase {| x := lit_0; y := y (transformBase c) |} c in
  let c := set_transformBase {| x := x (transformBase c); y := lit_0 |} c in
  doChildAnimation timing cb_clearZoom true c.

(** The closure [doChildAnimation] hands to [Animated.parallel(...).start]:
    [() => { callback(); this.doingChildAnimation = false }]. *)
Definition run_callback (cb : Callback) (c : Component) : Component :=
  match cb with
  | cb_noop => c
  | cb_clearZoom => set_childDoingZoom false c
  end.

Definition animationEnd (cb : Callback) (c : Component) : Component :=
  set_doingChildAnimation false (run_callback cb c).

Definition centerPosition (c : Component) : Position :=
  {| x := width (viewPort c) / lit_2; y := height (viewPort c) / lit_2 |}.

Definition getCenterDisposition (pos : Position) (c : Component) : Position :=
  let center := centerPosition c in
  {| x := x pos - x center; y := y pos - y center |}.

(** [doChildDoubleTouch(secondTouch, timediff)] *)
Definition doChildDoubleTouch (secondTouch : Position) (timediff : num)
    (c : Component) : Component :=
  if negb (childDoingZoom c) then
    let scale := DEFAULT_ZOOM in
    let center := getCenterDisposition secondTouch c in
    let c := doChangeScale {| x := lit_0; y := lit_0 |} scale (Some center) c in
    doChildAnimation SOFT_ANIMIATION_TIME cb_noop true c
  else
    doChildReset SOFT_ANIMIATION_TIME c.

(** [updateScale] of [doChildPinchMove]: [next.distance / prev.distance]. *)
Definition pinchScale (prev next : PinchInfo) : num :=
  distance next / distance prev.

(** [doChildPinchMove(prev, next, timeDiff)] *)
Definition doChildPinchMove (prev next : PinchInfo) (timeDiff : num)
    (c : Component) : Component :=
  let newDisposition :=
    {| x := x (center next) - x (center prev);
       y := y (center next) - y (center prev) |} in
  let updateScale := pinchScale prev next in
  let c := doChangeScale newDisposition updateScale
             (Some (getCenterDisposition (center prev) c)) c in
  doChildAnimation timeDiff cb_noop false c.

(** [doChildMove(prev, next, timeDiff)] *)
Definition doChildMove (prev next : Position) (timeDiff : num)
    (c : Component) : Component :=
  if childDoingZoom c && (scaleTarget c !== lit_1) then
    let newDisposition := {| x := x next - x prev; y := y next - y prev |} in
    let updateScale := lit_1 in
    let c := doChangeScale newDisposition updateScale None c in
    doChildAnimation timeDiff cb_noop false c
  else c.

(** [lastIndex()]: [data.length] is a non-negative integer. *)
Definition lastIndex (c : Component) : Z :=
  let maxLength := Z.of_nat (length (data (state c))) in
  if (0 <? maxLength)%Z then (maxLength - 1)%Z else maxLength.

(** ** Touch classifier *)

(** A touch of [nativeEvent.touches]. *)
Record NativeTouch : Type := { touch_pageX : num; touch_pageY : num }.

Record NativeEvent : Type := {
  pageX : num;
  pageY : num;
  touches : list NativeTouch
}.

Record GestureResponderEvent : Type := {
  timeStamp : num;
  nativeEvent : NativeEvent
}.

(** [doChildStateChange(to)].  [to] is always a fresh object, built by the
    caller with a spread of [this.childState]: the assignment
    [this.childState.lastTouch = 0] writes to the object held before the
    call, and [this.childState = to] then replaces that object. *)
Definition doChildStateChange (to : ChildState) (c : Component) : Component :=
  let c :=
    if negb (ChildStatus_eqb (status (childState c)) (status to)) then
      let c :=
        if negb (ChildStatus_eqb (status to) SINGLE)
        then set_childState (set_lastTouch lit_0 (childState c)) c
        else c in
      if ChildStatus_eqb (status to) DOUBLE then
        let c := set_childDoingZoom true c in
        emit (ScrollToIndex (currentIndex (state c)) false) c
      else c
    else c in
  set_childState to c.

(** [{ ...this.childState, status: ChildStatus.OTHER }] *)
Definition spread_OTHER (s : ChildState) : ChildState :=
  StOther (lastTouch s).

(** [onStartTouchResponder(event)] *)
Definition onStartTouchResponder (event : GestureResponderEvent)
    (c : Component) : Component :=
  let timediff := timeStamp event - lastTouch (childState c) in
  let newPos :=
    {| x := pageX (nativeEvent event) - x (absolutePosition c);
       y := pageY (nativeEvent event) - y (absolutePosition c) |} in
  if timediff <? DOUBLE_TOUCH_THRES then
    let c := set_childState (set_lastTouch lit_0 (childState c)) c in
    if negb (ChildStatus_eqb (status (childState c)) SINGLE)
    then doChildDoubleTouch newPos timediff c
    else c
  else
    let c := set_childState (set_lastTouch (timeStamp event) (childState c)) c in
    doChildStateChange
      (StSingle newPos newPos (timeStamp event) (lastTouch (childState c))) c.

Context {M : JSMath num}.

(** [onMoveTouchResponder(event)].  In the SINGLE and DOUBLE branches the
    spread keeps [initial] of the state the branch has just tested;
    [doChildMove] and [doChildPinchMove] do not assign [this.childState]. *)
Definition onMoveTouchResponder (event : GestureResponderEvent)
    (c : Component) : Component :=
  match touches (nativeEvent event) with
  | [_] =>
      let newPos :=
        {| x := pageX (nativeEvent event) - x (absolutePosition c);
           y := pageY (nativeEvent event) - y (absolutePosition c) |} in
      match childState c with
      | StSingle initial last timestamp _ =>
          let c := doChildMove last newPos (timestamp - timeStamp event) c in
          doChildStateChange
            (StSingle initial newPos (timeStamp event)
               (lastTouch (childState c))) c
      | _ =>
          doChildStateChange
            (StSingle newPos newPos (timeStamp event)
               (lastTouch (childState c))) c
      end
  | [t0; t1] =>
      let touchA :=
        {| x := touch_pageX t0 - x (absolutePosition c);
           y := touch_pageY t0 - y (absolutePosition c) |} in
      let touchB :=
        {| x := touch_pageX t1 - x (absolutePosition c);
           y := touch_pageY t1 - y (absolutePosition c) |} in
      let newPinch :=
        {| center := {| x := (x touchA + x touchB) / lit_2;
                        y := (y touchA + y touchB) / lit_2 |};
           distance :=
             Math_sqrt (Math_pow_2 (x touchA - x touchB)
                        + Math_pow_2 (y touchA - y touchB)) |} in
      match childState c with
      | StDouble initial last timestamp _ =>
          let c := doChildPinchMove last newPinch
                     (timestamp - timeStamp event) c in
          doChildStateChange
            (StDouble initial newPinch (timeStamp event)
               (lastTouch (childState c))) c
      | _ =>
          doChildStateChange
            (StDouble newPinch newPinch (timeStamp event)
               (lastTouch (childState c))) c
      end
  | _ =>
      doChildStateChange (spread_OTHER (childState c)) c
  end.

(** ** Gesture handlers

    Each handler returns what the source returns, and the component after
    the call. *)

(** [event.nativeEvent.touches.length > 1] *)
Definition moreThanOneTouch (event : GestureResponderEvent) : bool :=
  (1 <? length (touches (nativeEvent event)))%nat.

Definition onStartShouldSetResponder (event : GestureResponderEvent)
    (c : Component) : bool * Component :=
  let ret := childDoingZoom c in
  let c :=
    if negb ret && (length (touches (nativeEvent event)) =? 1)%nat
    then onStartTouchResponder event c
    else c in
  let c := doChildStateChange (spread_OTHER (childState c)) c in
  (ret, c).

Definition onMoveShouldSetResponder (event : GestureResponderEvent)
    (c : Component) : bool * Component :=
  let ret := childDoingZoom c || moreThanOneTouch event in
  (ret, c).

Definition onResponderTerminationRequest (event : GestureResponderEvent)
    (c : Component) : bool * Component :=
  let ret := childDoingZoom c || moreThanOneTouch event in
  (negb ret, c).

Definition onStartShouldSetResponderCapture (event : GestureResponderEvent)
    (c : Component) : bool * Component :=
  let ret := childDoingZoom c || moreThanOneTouch event in
  (ret, c).

Definition onMoveShouldSetResponderCapture (event : GestureResponderEvent)
    (c : Component) : bool * Component :=
  let ret := childDoingZoom c || moreThanOneTouch event in
  (ret, c).

Definition onResponderMove (event : GestureResponderEvent)
    (c : Component) : Component :=
  onMoveTouchResponder event c.

Definition onResponderRelease (c : Component) : Component :=
  let c := doChildStateChange (spread_OTHER (childState c)) c in
  if (scaleTarget c >? MIN_ZOOM_RESET) && (scaleTarget c <? MAX_ZOOM_RESET)
  then doChildReset SOFT_ANIMIATION_TIME c
  else c.

Definition onResponderReject (c : Component) : Component :=
  doChildStateChange (spread_OTHER (childState c)) c.

Definition onResponderTerminate (c : Component) : Component :=
  doChildStateChange (spread_OTHER (childState c)) c.

Definition onResponderStart (event : GestureResponderEvent)
    (c : Component) : Component :=
  if (length (touches (nativeEvent event)) =? 1)%nat
  then onStartTouchResponder event c
  else onMoveTouchResponder event c.

End Model.

Arguments construct {num N ItemT} w h initialData initialScrollIndex.
Arguments DOUBLE_TOUCH_THRES {num N}.
Arguments MAX_ZOOM {num N}.
Arguments DEFAULT_ZOOM {num N}.
Arguments MIN_ZOOM {num N}.
Arguments MAX_ZOOM_RESET {num N}.
Arguments MIN_ZOOM_RESET {num N}.
Arguments SOFT_ANIMIATION_TIME {num N}.
Arguments StopScaleAnimation {num}.
Arguments StopTransformAnimation {num}.
Arguments ScrollToIndex {num} index animated.

(** ** The rendered transform

    [wrapRenderItem] draws the current page under
    [translateX, translateY, scale]: the point of the content at offset [q]
    from the centre of the viewport appears at offset [t + s * q] from it,
    for the animated translation [t] and scale [s].  The pivots the engine
    receives ([getCenterDisposition]) are offsets from the same centre. *)

Section Rendering.

Context {num : Type} {N : JSNumber num}.
Local Open Scope js_scope.

Definition screenOffset (s : num) (t q : Position num) : Position num :=
  {| x := x t + s * x q; y := y t + s * y q |}.

End Rendering.

(** Equality of rational positions, coordinate by coordinate. *)
Definition Position_eq (a b : Position Q) : Prop :=
  (x a == x b)%Q /\ (y a == y b)%Q.

(** ** The gesture state by reference

    [this.childState] holds a reference to an object, and every argument of
    [doChildStateChange] is an object literal that spreads the current state:
    a new object.  [Component] keeps the state by value; this section keeps
    it by reference, to check the one place where the difference shows, the
    assignment to [this.childState.lastTouch] inside [doChildStateChange]. *)

Section References.

Variable num : Type.
Context {N : JSNumber num}.

(** The objects allocated so far, by address, and the address held in
    [this.childState]. *)
Record Store : Type := {
  objects : list (ChildState num);
  this_childState : nat
}.

Definition read (a : nat) (h : Store) : option (ChildState num) :=
  nth_error (objects h) a.

Fixpoint write (a : nat) (o : ChildState num) (l : list (ChildState num))
    : list (ChildState num) :=
  match l, a with
  | [], _ => []
  | _ :: l', O => o :: l'
  | o' :: l', S a' => o' :: write a' o l'
  end.

(** An object literal, a spread included, is a new object. *)
Definition alloc (o : ChildState num) (h : Store) : nat * Store :=
  (length (objects h),
   {| objects := objects h ++ [o]; this_childState := this_childState h |}).

(** [doChildStateChange(to)] on the store ([childDoingZoom] and the list are
    left out). *)
Definition doChildStateChange_ref (to : nat) (h : Store) : Store :=
  match read (this_childState h) h, read to h with
  | Some cur, Some t =>
      let h :=
        if negb (ChildStatus_eqb (status cur) (status t)) then
          if negb (ChildStatus_eqb (status t) SINGLE)
          then {| objects := write (this_childState h)
                               (set_lastTouch lit_0 cur) (objects h);
                  this_childState := this_childState h |}
          else h
        else h in
      {| objects := objects h; this_childState := to |}
  | _, _ => h
  end.

(** [this.doChildStateChange({ ...this.childState, status: OTHER })] *)
Definition transition_to_OTHER_ref (h : Store) : Store :=
  match read (this_childState h) h with
  | Some cur =>
      let (to, h) := alloc (spread_OTHER cur) h in
      doChildStateChange_ref to h
  | None => h
  end.

End References.

(** ** The specification of binary64

    [Prim2SF] maps a binary64 number to its description in [SpecFloat]; two
    predicates on descriptions. *)

Module SF.

(** [nan X]: [X] is NaN. *)
Definition nan (X : spec_float) : bool :=
  match X with S754_nan => true | _ => false end.

(** [signed s X]: [X] is a number (not NaN) of sign [s]. *)
Definition signed (s : bool) (X : spec_float) : Prop :=
  match X with
  | S754_nan => False
  | S754_zero t | S754_infinity t | S754_finite t _ _ => t = s
  end.

End SF.

(** ** The host

    React Native delivers the responder events, and invokes the completion
    closure of an animation it was asked to start; the source fixes neither
    the order nor the moment.  [AnimationEnd k] is the invocation of the
    closure of the [k]-th animation started (counting from 0). *)

Section Host.

Variable num : Type.
Context {N : JSNumber num} {M : JSMath num}.
Variable ItemT : Type.

(** The callbacks of the animations started so far, oldest first. *)
Fixpoint started (log : list (Effect num)) : list Callback :=
  match log with
  | [] => []
  | StartAnimation _ _ _ cb :: l => started l ++ [cb]
  | _ :: l => started l
  end.

Inductive HostEvent : Type :=
| StartShouldSetResponder (event : GestureResponderEvent num)
| MoveShouldSetResponder (event : GestureResponderEvent num)
| ResponderTerminationRequest (event : GestureResponderEvent num)
| StartShouldSetResponderCapture (event : GestureResponderEvent num)
| MoveShouldSetResponderCapture (event : GestureResponderEvent num)
| ResponderStart (event : GestureResponderEvent num)
| ResponderMove (event : GestureResponderEvent num)
| ResponderRelease
| ResponderReject
| ResponderTerminate
| AnimationEnd (k : nat).

Definition dispatch (ev : HostEvent) (c : Component num ItemT)
    : Component num ItemT :=
  match ev with
  | StartShouldSetResponder e => snd (onStartShouldSetResponder e c)
  | MoveShouldSetResponder e => snd (onMoveShouldSetResponder e c)
  | ResponderTerminationRequest e => snd (onResponderTerminationRequest e c)
  | StartShouldSetResponderCapture e =>
      snd (onStartShouldSetResponderCapture e c)
  | MoveShouldSetResponderCapture e =>
      snd (onMoveShouldSetResponderCapture e c)
  | ResponderStart e => onResponderStart e c
  | ResponderMove e => onResponderMove e c
  | ResponderRelease => onResponderRelease c
  | ResponderReject => onResponderReject c
  | ResponderTerminate => onResponderTerminate c
  | AnimationEnd k =>
      match nth_error (started (effects c)) k with
      | Some cb => animationEnd cb c
      | None => c
      end
  end.

Definition run (evs : list HostEvent) (c : Component num ItemT)
    : Component num ItemT :=
  fold_left (fun c ev => dispatch ev c) evs c.

End Host.

Arguments ResponderRelease {num}.
Arguments ResponderReject {num}.
Arguments ResponderTerminate {num}.
Arguments AnimationEnd {num} k.

(** ** Concrete gestures on binary64

    A 300 x 300 gallery at the origin of the screen, with two images. *)

Definition gallery : Component float nat :=
  construct 300%float 300%float [1%nat; 2%nat] 0%Z.

(** One finger down at [(px, py)] at time [t]. *)
Definition tap (t px py : float) : GestureResponderEvent float :=
  {| timeStamp := t;
     nativeEvent :=
       {| pageX := px; pageY := py;
          touches := [ {| touch_pageX := px; touch_pageY := py |} ] |} |}.

(** Two fingers on the horizontal line through the centre of the gallery, at
    [xa] and [xb], at time [t]. *)
Definition pinch (t xa xb : float) : GestureResponderEvent float :=
  {| timeStamp := t;
     nativeEvent :=
       {| pageX := xa; pageY := 150%float;
          touches := [ {| touch_pageX := xa; touch_pageY := 150%float |};
                       {| touch_pageX := xb; touch_pageY := 150%float |} ] |} |}.

(** The pinch of the scenario: both centres at the centre of a 300 x 300
    viewport, the distance going from 100 to 200. *)
Definition pinch_at_centre (d : float) : PinchInfo float :=
  {| center := {| x := 150%float; y := 150%float |}; distance := d |}.

(** The traces below leave out the calls of the capture predicates and of
    [onMoveShouldSetResponder], which change nothing.  A finger that lands
    while zoom is not in progress reaches the component through
    [onStartShouldSetResponder]; when the view holds the
    gesture, or claims it in the capture phase (two touches, or zoom in
    progress), touch-downs arrive as [onResponderStart] and moves as
    [onResponderMove]. *)

(** Two fingers land 100 apart and open to 120: the target scale goes to 1.2
    and the animation of the move (animation 0) runs to its end. *)
Definition pinch_to_1_2 : list (HostEvent float) :=
  [ StartShouldSetResponder (tap 1000 100 150);
    ResponderStart (pinch 1010 100 200);
    ResponderMove (pinch 1026 90 210);
    AnimationEnd 0 ].

(** The fingers are lifted, which starts the reset (animation 1, 300 ms);
    while it runs, two fingers land again, 10 apart. *)
Definition pinch_begun_during_reset : list (HostEvent float) :=
  pinch_to_1_2 ++
  [ ResponderRelease;
    ResponderStart (tap 1500 145 150);
    ResponderStart (pinch 1510 145 155) ].

(** The second pinch opens from 10 to 30 while the reset runs; the reset
    completes; the fingers are lifted. *)
Definition pinch_during_reset : list (HostEvent float) :=
  pinch_begun_during_reset ++
  [ ResponderMove (pinch 1526 135 165);
    AnimationEnd 1;
    ResponderRelease ].

(** Two taps 100 ms apart, 50 px right of the centre. *)
Definition double_tap : list (HostEvent float) :=
  [ StartShouldSetResponder (tap 3000 200 150);
    StartShouldSetResponder (tap 3100 200 150) ].

(** A double tap 50 px right of the centre (animation 0: the zoom, started
    at 1150 for 300 ms), a third tap, and a fourth 130 ms after the third: a
    double tap while zoomed (animation 1, started at 1400: the reset,
    overriding animation 0). *)
Definition zoom_then_reset : list (HostEvent float) :=
  [ StartShouldSetResponder (tap 1000 200 150);
    StartShouldSetResponder (tap 1150 200 150);
    ResponderStart (tap 1270 200 150);
    ResponderRelease;
    ResponderStart (tap 1400 200 150) ].

(** Two fingers land on the same point: a pinch of distance 0. *)
Definition coincident_fingers : list (HostEvent float) :=
  [ StartShouldSetResponder (tap 1000 150 150);
    ResponderStart (pinch 1010 150 150) ].

(** ** Invariants of a gesture

    What the handlers keep true from one host event to the next. *)

Section Traces.

Variable num : Type.
Context {N : JSNumber num}.
Variable ItemT : Type.

(** An animation is running only while zoom is in progress. *)
Definition flags_ok (c : Component num ItemT) : bool :=
  implb (doingChildAnimation c) (childDoingZoom c).

(** What a gesture asks of React Native: of the list, [scrollToIndex] to the
    page [i], not animated; of an animation, a target that went through the
    clamps of [doChildAnimation], the scale first and the translation to the
    bound of that scale in the viewport [v]; and, when the animation carries
    the closure that clears [childDoingZoom], the target [doChildReset]
    gives it: the clamps of scale [1] and translation [{0, 0}]. *)
Definition gesture_effect (v : ViewPort num) (i : Z) (e : Effect num) : Prop :=
  match e with
  | ScrollToIndex index animated => index = i /\ animated = false
  | StartAnimation _ toScale toValue callback =>
      let maxX := (width v * Math_abs (lit_1 - toScale) / lit_2)%js in
      let maxY := (height v * Math_abs (lit_1 - toScale) / lit_2)%js in
      (exists s, toScale = Math_max (Math_min s MAX_ZOOM) MIN_ZOOM) /\
      (exists tx, x toValue = Math_max (Math_min tx maxX) (- maxX)%js) /\
      (exists ty, y toValue = Math_max (Math_min ty maxY) (- maxY)%js) /\
      (callback = cb_clearZoom ->
       toScale = Math_max (Math_min lit_1 MAX_ZOOM) MIN_ZOOM /\
       x toValue = Math_max (Math_min (lit_0 * lit_1)%js maxX) (- maxX)%js /\
       y toValue = Math_max (Math_min (lit_0 * lit_1)%js maxY) (- maxY)%js)
  | _ => True
  end.

(** [after c c']: [c'] has the viewport, the measured position and the React
    state of [c]; its log is the log of [c] with what a gesture asks put in
    front; its flags are consistent if those of [c] are. *)
Definition after (c c' : Component num ItemT) : Prop :=
  viewPort c' = viewPort c /\
  absolutePosition c' = absolutePosition c /\
  state c' = state c /\
  (exists l, effects c' = l ++ effects c
             /\ Forall (gesture_effect (viewPort c)
                          (currentIndex (state c))) l) /\
  (flags_ok c = true -> flags_ok c' = true).

(** The host events that reach [onStartTouchResponder]: the event handed
    over, if [ev] is one of them. *)
Definition touchDown (ev : HostEvent num) (c : Component num ItemT)
    : option (GestureResponderEvent num) :=
  match ev with
  | StartShouldSetResponder e =>
      if negb (childDoingZoom c)
         && (length (touches (nativeEvent e)) =? 1)%nat
      then Some e else None
  | ResponderStart e =>
      if (length (touches (nativeEvent e)) =? 1)%nat then Some e else None
  | _ => None
  end.

End Traces.

(** ** The sign of the scale on binary64 *)

(** [not_negative v]: [v] is NaN, or a number whose sign bit is clear. *)
Definition SF_not_negative (X : spec_float) : bool :=
  match X with
  | S754_nan => true
  | S754_zero s | S754_infinity s | S754_finite s _ _ => negb s
  end.

Definition not_negative (v : float) : bool := SF_not_negative (Prim2SF v).

(** No pinch distance held in the gesture state is negative. *)
Definition pinch_ok (s : ChildState float) : bool :=
  match s with
  | StDouble initial last _ _ =>
      not_negative (distance initial) && not_negative (distance last)
  | _ => true
  end.

(** Neither the target scale nor a pinch distance is negative. *)
Definition scale_ok (ItemT : Type) (c : Component float ItemT) : bool :=
  not_negative (scaleTarget c) && pinch_ok (childState c).

(** An animation whose target is inside the bounds of the viewport [v]: a
    scale in [[0.5, 5]], a translation of magnitude at most
    [(dimension * |1 - scale|) / 2]; or NaN in their place. *)
Definition in_bounds (v : ViewPort float) (e : Effect float) : bool :=
  match e with
  | StartAnimation _ toScale toValue _ =>
      let maxX := (width v * abs (1 - toScale) / 2)%float in
      let maxY := (height v * abs (1 - toScale) / 2)%float in
      (PrimFloat.is_nan toScale
       || (0.5 <=? toScale)%float && (toScale <=? 5)%float)
      && (PrimFloat.is_nan (x toValue) || (abs (x toValue) <=? maxX)%float)
      && (PrimFloat.is_nan (y toValue) || (abs (y toValue) <=? maxY)%float)
  | _ => true
  end.

(** ** Paging

    The list handlers and [componentDidUpdate].  An index is an integer in
    [SwiperViewState]; these functions are read on the rationals, where
    [Math.round] always returns one.  The theorems about them take the width
    of the viewport to be positive: on binary64 a division by a zero width
    gives an infinity or NaN, which no integer stands for. *)

Section Paging.

Variable ItemT : Type.
Local Open Scope Q_scope.

(** [Math.round]: the nearest integer, a half going up. *)
Definition Math_round (q : Q) : Z := Qfloor (q + (1 # 2)).

(** [this.setState(s)], every caller passing a whole state
    ([{ ...this.state, ... }]). *)
Definition setState (s : SwiperViewState ItemT) (c : Component Q ItemT)
    : Component Q ItemT :=
  {| doingChildAnimation := doingChildAnimation c; viewPort := viewPort c;
     absolutePosition := absolutePosition c; scaleTarget := scaleTarget c;
     transformBase := transformBase c; childState := childState c;
     childDoingZoom := childDoingZoom c; state := s;
     effects := effects c |}.

(** [scrollHandlers.onContentSizeChange(width)] *)
Definition onContentSizeChange (w : Q) (c : Component Q ItemT)
    : Component Q ItemT :=
  let newWindowLength := Math_round (w / width (viewPort c)) in
  if (newWindowLength =? Z.of_nat (length (data (state c))))%Z then
    let c := emit (ScrollToIndex (currentIndex (state c)) false) c in
    setState {| refreshing := None; data := data (state c);
                currentIndex := currentIndex (state c) |} c
  else c.


(** The [onRefresh] handed to the FlatList in [render] (pull to refresh). *)
Definition FlatList_onRefresh (c : Component Q ItemT) : Component Q ItemT :=
  setState {| refreshing := Some ALL; data := data (state c);
              currentIndex := currentIndex (state c) |} c.

(** [scrollEnabled] of the FlatList in [render]. *)
Definition scrollEnabled (c : Component Q ItemT) : bool :=
  match refreshing (state c) with None => true | Some _ => false end.



(** What [props.onRefresh] resolves to: [(newIndex, newData)]. *)
Definition Refreshed : Type := (Z * list ItemT)%type.

(** [defaultProps.onRefresh] *)
Definition default_onRefresh (_ : RefreshStatus) (prevData : list ItemT)
    (prevIndex : Z) : Refreshed :=
  (prevIndex, prevData).

(** [componentDidUpdate(_prevProps, prevState)] up to its [await]: the
    arguments of the call of [props.onRefresh], when it is made. *)
Definition componentDidUpdate_call (prevState : SwiperViewState ItemT)
    (c : Component Q ItemT) : option (RefreshStatus * list ItemT * Z) :=
  match refreshing prevState, refreshing (state c) with
  | None, Some r => Some (r, data (state c), currentIndex (state c))
  | _, _ => None
  end.

(** [componentDidUpdate] from its [await] on, with what the promise resolved
    to, on the component as it is by then. *)
Definition componentDidUpdate_resume (r : Refreshed) (c : Component Q ItemT)
    : Component Q ItemT :=
  let (newIndex, newData) := r in
  if (length newData =? length (data (state c)))%nat then
    let c := emit (ScrollToIndex newIndex false) c in
    setState {| refreshing := None; data := newData;
                currentIndex := newIndex |} c
  else
    setState {| refreshing := refreshing (state c); data := newData;
                currentIndex := newIndex |} c.

(** [componentDidUpdate] when nothing reaches the component between the call
    of [onRefresh] and the resolution of its promise. *)
Definition componentDidUpdate
    (onRefresh : RefreshStatus -> list ItemT -> Z -> Refreshed)
    (prevState : SwiperViewState ItemT) (c : Component Q ItemT)
    : Component Q ItemT :=
  match componentDidUpdate_call prevState c with
  | Some (r, prevData, prevIndex) =>
      componentDidUpdate_resume (onRefresh r prevData prevIndex) c
  | None => c
  end.

End Paging.

(** ** Keys

    [keyExtractor] of the FlatList in [render], with [hasId].  An item is
    any value; [item_id] reads it the way [hasId] does: the [id] of an item
    that is not [undefined] and whose [id] is a string.  The index the
    FlatList passes is a position in [data]. *)

Section Keys.

Variable ItemT : Type.
Variable item_id : ItemT -> option String.string.

Definition hasId (p : ItemT) : bool :=
  match item_id p with Some _ => true | None => false end.

(** [index.toString()] *)
Definition toString (index : nat) : String.string :=
  DecimalString.NilEmpty.string_of_uint (Nat.to_uint index).

Definition keyExtractor (item : ItemT) (index : nat) : String.string :=
  match item_id item with
  | Some id => id
  | None => toString index
  end.

End Keys.

(** * Properties *)

(** ** Order and sign of binary64 numbers *)

Module SFOrder.

Lemma compare_refl X : SF.nan X = false -> SFcompare X X = Some Eq.
Proof.
  destruct X as [s|s| |s m e]; cbn; try discriminate; intros _.
  - reflexivity.
  - destruct s; reflexivity.
  - rewrite Z.compare_refl, Pos.compare_cont_refl. destruct s; reflexivity.
Qed.

Lemma compare_antisym X Y :
  SFcompare Y X = option_map CompOpp (SFcompare X Y).
Proof.
  destruct X as [s|s| |s m e], Y as [t|t| |t n f]; cbn;
    try reflexivity; try (destruct s; reflexivity); try (destruct t; reflexivity);
    try (destruct s, t; reflexivity).
  assert (Hp : Pos.compare_cont Eq n m = CompOpp (Pos.compare_cont Eq m n))
    by (symmetry; apply (Pos.compare_cont_antisym m n Eq)).
  rewrite (Z.compare_antisym e f), Hp.
  destruct s, t; cbn; try reflexivity;
    destruct (e ?= f)%Z; cbn; try reflexivity;
    destruct (Pos.compare_cont Eq m n); reflexivity.
Qed.

Lemma compare_total X Y :
  SF.nan X = false -> SF.nan Y = false -> exists c, SFcompare X Y = Some c.
Proof.
  destruct X as [s|s| |s m e], Y as [t|t| |t n f]; cbn; try discriminate;
    intros _ _; eexists; reflexivity.
Qed.

Lemma compare_opp X Y : SFcompare (SFopp X) (SFopp Y) = SFcompare Y X.
Proof.
  destruct X as [s|s| |s m e], Y as [t|t| |t n f]; cbn;
    try reflexivity; try (destruct s; reflexivity); try (destruct t; reflexivity);
    try (destruct s, t; reflexivity).
  assert (Hp : Pos.compare_cont Eq n m = CompOpp (Pos.compare_cont Eq m n))
    by (symmetry; apply (Pos.compare_cont_antisym m n Eq)).
  rewrite (Z.compare_antisym e f), Hp.
  destruct s, t; cbn; try reflexivity;
    destruct (e ?= f)%Z; cbn; try reflexivity;
    destruct (Pos.compare_cont Eq m n); reflexivity.
Qed.

End SFOrder.

Module F64Facts.

Local Open Scope float_scope.

Lemma is_nan_spec a : PrimFloat.is_nan a = SF.nan (Prim2SF a).
Proof.
  unfold PrimFloat.is_nan. rewrite FloatAxioms.eqb_spec. unfold SFeqb.
  destruct (SF.nan (Prim2SF a)) eqn:E.
  - destruct (Prim2SF a); try discriminate E. reflexivity.
  - rewrite (SFOrder.compare_refl _ E). reflexivity.
Qed.

Lemma ltb_leb a b : (a <? b) = true -> (a <=? b) = true.
Proof.
  rewrite FloatAxioms.ltb_spec, FloatAxioms.leb_spec. unfold SFltb, SFleb.
  destruct (SFcompare (Prim2SF a) (Prim2SF b)) as [[]|]; auto.
Qed.

Lemma leb_refl a : PrimFloat.is_nan a = false -> (a <=? a) = true.
Proof.
  rewrite is_nan_spec, FloatAxioms.leb_spec. intros H. unfold SFleb.
  rewrite (SFOrder.compare_refl _ H). reflexivity.
Qed.

Lemma not_ltb_leb a b :
  PrimFloat.is_nan a = false -> PrimFloat.is_nan b = false ->
  (a <? b) = false -> (b <=? a) = true.
Proof.
  rewrite !is_nan_spec, FloatAxioms.ltb_spec, FloatAxioms.leb_spec.
  intros Ha Hb. unfold SFltb, SFleb.
  rewrite (SFOrder.compare_antisym (Prim2SF a) (Prim2SF b)).
  destruct (SFOrder.compare_total _ _ Ha Hb) as [c ->]. destruct c; cbn; auto.
Qed.

Lemma leb_not_nan a b :
  (a <=? b) = true -> PrimFloat.is_nan a = false /\ PrimFloat.is_nan b = false.
Proof.
  rewrite !is_nan_spec, FloatAxioms.leb_spec. unfold SFleb.
  destruct (Prim2SF a), (Prim2SF b); cbn; try discriminate; auto.
Qed.

Lemma max_spec a b :
  PrimFloat.is_nan a = false -> PrimFloat.is_nan b = false ->
  (F64.max a b = a \/ F64.max a b = b) /\
  (a <=? F64.max a b) = true /\ (b <=? F64.max a b) = true.
Proof.
  intros Ha Hb. unfold F64.max. rewrite Ha, Hb. cbn [orb].
  destruct (a <? b) eqn:Hab.
  - repeat split; auto using ltb_leb, leb_refl.
  - destruct (b <? a) eqn:Hba.
    + repeat split; auto using ltb_leb, leb_refl.
    + destruct (PrimFloat.get_sign a);
        repeat split; auto using not_ltb_leb, leb_refl.
Qed.

Lemma min_spec a b :
  PrimFloat.is_nan a = false -> PrimFloat.is_nan b = false ->
  (F64.min a b = a \/ F64.min a b = b) /\
  (F64.min a b <=? a) = true /\ (F64.min a b <=? b) = true.
Proof.
  intros Ha Hb. unfold F64.min. rewrite Ha, Hb. cbn [orb].
  destruct (a <? b) eqn:Hab.
  - repeat split; auto using ltb_leb, leb_refl.
  - destruct (b <? a) eqn:Hba.
    + repeat split; auto using ltb_leb, leb_refl.
    + destruct (PrimFloat.get_sign a);
        repeat split; auto using not_ltb_leb, leb_refl.
Qed.

(** [Math.max(Math.min(v, hi), lo)] lies in [[lo, hi]] when [v] is a number
    and [lo <= hi]. *)
Lemma clamp_bounds v lo hi :
  PrimFloat.is_nan v = false -> (lo <=? hi) = true ->
  let r := F64.max (F64.min v hi) lo in
  (lo <=? r) = true /\ (r <=? hi) = true.
Proof.
  intros Hv Hlh r.
  destruct (leb_not_nan Hlh) as [Hlo Hhi].
  destruct (min_spec v hi Hv Hhi) as (Hm & _ & Hmh).
  assert (Hmn : PrimFloat.is_nan (F64.min v hi) = false)
    by (destruct Hm as [-> | ->]; assumption).
  destruct (max_spec (F64.min v hi) lo Hmn Hlo) as (Hr & _ & Hlr).
  split; [exact Hlr|].
  unfold r. destruct Hr as [-> | ->]; assumption.
Qed.

(** A number that is at least [0] is at least its own opposite. *)
Lemma opp_leb m : (0 <=? m) = true -> (- m <=? m) = true.
Proof.
  rewrite !FloatAxioms.leb_spec, FloatAxioms.opp_spec. unfold SFleb.
  change (Prim2SF 0) with (S754_zero false).
  destruct (Prim2SF m) as [s|s| |s mm e]; cbn; try discriminate; auto;
    destruct s; cbn; auto; discriminate.
Qed.

Lemma abs_leb r m :
  (- m <=? r) = true -> (r <=? m) = true -> (abs r <=? m) = true.
Proof.
  rewrite !FloatAxioms.leb_spec, FloatAxioms.opp_spec, FloatAxioms.abs_spec. unfold SFleb.
  intros H1 H2.
  assert (E : SFcompare (SFopp (Prim2SF r)) (Prim2SF m)
              = SFcompare (SFopp (Prim2SF m)) (Prim2SF r)).
  { rewrite <- (SFOrder.compare_opp (Prim2SF m) (SFopp (Prim2SF r))).
    f_equal. destruct (Prim2SF r) as [s|s| |s mm e]; cbn;
      rewrite ?negb_involutive; reflexivity. }
  destruct (Prim2SF r) as [s|s| |s mm e] eqn:Er.
  - cbn [SFabs]. destruct (Prim2SF m); destruct s; exact H2.
  - destruct s.
    + change (SFabs (S754_infinity true)) with (SFopp (S754_infinity true)).
      rewrite E. exact H1.
    + exact H2.
  - exact H2.
  - destruct s.
    + change (SFabs (S754_finite true mm e))
        with (SFopp (S754_finite true mm e)).
      rewrite E. exact H1.
    + exact H2.
Qed.

End F64Facts.

Module SFSign.

Lemma shr_1_nonneg mrs : (0 <= shr_m mrs)%Z -> (0 <= shr_m (shr_1 mrs))%Z.
Proof.
  destruct mrs as [m r s]. cbn [shr_m]. intros H.
  destruct m as [|[p|p|]|p]; cbn; lia.
Qed.

Lemma iter_shr_1_nonneg p :
  forall mrs, (0 <= shr_m mrs)%Z -> (0 <= shr_m (iter_pos shr_1 p mrs))%Z.
Proof.
  induction p as [p IH|p IH|]; intros mrs H; cbn [iter_pos].
  - apply IH, IH, shr_1_nonneg, H.
  - apply IH, IH, H.
  - apply shr_1_nonneg, H.
Qed.

Lemma shr_nonneg mrs e n :
  (0 <= shr_m mrs)%Z -> (0 <= shr_m (fst (shr mrs e n)))%Z.
Proof.
  intros H. destruct n; cbn [shr fst]; auto using iter_shr_1_nonneg.
Qed.

Lemma shr_record_of_loc_m m l : shr_m (shr_record_of_loc m l) = m.
Proof. destruct l as [|[]]; reflexivity. Qed.

Lemma round_nearest_even_nonneg m l :
  (0 <= m)%Z -> (0 <= round_nearest_even m l)%Z.
Proof.
  intros H. destruct l as [|[]]; cbn [round_nearest_even]; try lia.
  destruct (Z.even m); lia.
Qed.

Lemma binary_round_aux_signed sx mx ex lx :
  (0 <= mx)%Z -> SF.signed sx (binary_round_aux prec emax sx mx ex lx).
Proof.
  intros H. unfold binary_round_aux, shr_fexp.
  set (r1 := shr (shr_record_of_loc mx lx) ex _).
  assert (H1 : (0 <= shr_m (fst r1))%Z).
  { apply shr_nonneg. rewrite shr_record_of_loc_m. exact H. }
  destruct r1 as [mrs' e']. cbn [fst] in H1.
  set (m2 := round_nearest_even (shr_m mrs') (loc_of_shr_record mrs')).
  assert (H2 : (0 <= m2)%Z) by (apply round_nearest_even_nonneg, H1).
  set (r2 := shr (shr_record_of_loc m2 loc_Exact) e' _).
  assert (H3 : (0 <= shr_m (fst r2))%Z).
  { apply shr_nonneg. rewrite shr_record_of_loc_m. exact H2. }
  destruct r2 as [mrs'' e'']. cbn [fst] in H3.
  destruct (shr_m mrs'') as [|p|p].
  - reflexivity.
  - destruct (e'' <=? emax - prec)%Z; reflexivity.
  - lia.
Qed.

Lemma binary_round_signed sx mx ex :
  SF.signed sx (binary_round prec emax sx mx ex).
Proof.
  unfold binary_round. destruct (shl_align _ _ _) as [mz ez].
  apply binary_round_aux_signed. lia.
Qed.

Lemma SFmul_signed m e A :
  SF.signed false A ->
  SF.signed false (SF64mul (S754_finite false m e) A).
Proof.
  destruct A as [t|t| |t n f]; cbn; intros H; try contradiction; subst;
    try reflexivity.
  apply binary_round_aux_signed. lia.
Qed.

Lemma SFdiv_signed P n f :
  SF.signed false P ->
  SF.signed false (SF64div P (S754_finite false n f)).
Proof.
  destruct P as [t|t| |t m e]; cbn; intros H; try contradiction; subst;
    try reflexivity.
  unfold SF64div, SFdiv. cbn [xorb].
  destruct (SFdiv_core_binary prec emax (Z.pos m) e (Z.pos n) f)
    as [[mz ez] lz] eqn:E.
  apply binary_round_aux_signed.
  unfold SFdiv_core_binary in E.
  set (m' := match _ with Z.pos _ => _ | Z0 => _ | Z.neg _ => _ end) in E.
  assert (Hm : (0 <= m')%Z).
  { unfold m'. destruct (_ - _ - _)%Z; try lia.
    apply Z.shiftl_nonneg. lia. }
  destruct (Z.div_eucl m' (Z.pos n)) as [q r] eqn:Ed.
  inversion E; subst mz.
  assert (Hq : q = (m' / Z.pos n)%Z) by (unfold Z.div; rewrite Ed; reflexivity).
  rewrite Hq. apply Z.div_pos; lia.
Qed.

Lemma SFsub_finite s1 m1 e1 s2 m2 e2 :
  exists t, SF.signed t (SF64sub (S754_finite s1 m1 e1) (S754_finite s2 m2 e2)).
Proof.
  unfold SF64sub, SFsub, binary_normalize.
  destruct (_ - _)%Z.
  - exists false. reflexivity.
  - exists false. apply binary_round_signed.
  - exists true. apply binary_round_signed.
Qed.

Lemma SFabs_signed t D : SF.signed t D -> SF.signed false (SFabs D).
Proof. destruct D; cbn; intros H; try contradiction; reflexivity. Qed.

End SFSign.

Module F64Bound.

Local Open Scope float_scope.

(** The shapes of the binary64 numbers the bounds are stated with. *)
Lemma positive_finite_shape w :
  (0 <? w) = true -> (w <? infinity) = true ->
  exists m e, Prim2SF w = S754_finite false m e.
Proof.
  rewrite !FloatAxioms.ltb_spec. unfold SFltb.
  change (Prim2SF 0) with (S754_zero false).
  change (Prim2SF infinity) with (S754_infinity false).
  destruct (Prim2SF w) as [s|s| |s m e]; cbn; try discriminate.
  - destruct s; discriminate.
  - destruct s; try discriminate. intros _ _. eauto.
Qed.

Lemma zoom_range_shape s :
  (0.5 <=? s) = true -> (s <=? 5) = true ->
  exists m e, Prim2SF s = S754_finite false m e.
Proof.
  rewrite !FloatAxioms.leb_spec. unfold SFleb.
  change (Prim2SF 0.5) with (S754_finite false 4503599627370496 (-53)).
  change (Prim2SF 5) with (S754_finite false 5629499534213120 (-50)).
  destruct (Prim2SF s) as [t|t| |t m e].
  - cbn. discriminate.
  - destruct t; cbn; discriminate.
  - cbn. discriminate.
  - destruct t; [cbn; discriminate|]. intros _ _. eauto.
Qed.

Lemma signed_false_leb x :
  SF.signed false (Prim2SF x) -> (0 <=? x) = true.
Proof.
  rewrite FloatAxioms.leb_spec. unfold SFleb.
  change (Prim2SF 0) with (S754_zero false).
  destruct (Prim2SF x) as [t|t| |t m e]; cbn; intros H;
    try contradiction; subst; reflexivity.
Qed.

(** The bound [(dimension * Math.abs(1 - scale)) / 2] is a number, and not
    below zero, for a positive finite dimension and a scale in [[0.5, 5]]. *)
Lemma bound_nonneg w s :
  (0 <? w) = true -> (w <? infinity) = true ->
  (0.5 <=? s) = true -> (s <=? 5) = true ->
  (0 <=? (w * abs (1 - s)) / 2) = true.
Proof.
  intros Hw0 Hw1 Hs0 Hs1.
  destruct (positive_finite_shape Hw0 Hw1) as (mw & ew & Ew).
  destruct (zoom_range_shape Hs0 Hs1) as (ms & es & Es).
  apply signed_false_leb.
  rewrite FloatAxioms.div_spec, FloatAxioms.mul_spec, FloatAxioms.abs_spec,
    FloatAxioms.sub_spec, Ew, Es.
  change (Prim2SF 1) with (S754_finite false 4503599627370496 (-52)).
  change (Prim2SF 2) with (S754_finite false 4503599627370496 (-51)).
  apply SFSign.SFdiv_signed, SFSign.SFmul_signed.
  destruct (SFSign.SFsub_finite false 4503599627370496 (-52) false ms es)
    as [t Ht].
  exact (SFSign.SFabs_signed _ _ Ht).
Qed.

(** Division by [+0]. *)
Lemma div_zero_positive v : (0 <? v) = true -> v / 0 = infinity.
Proof.
  intros H. apply Prim2SF_inj. rewrite FloatAxioms.div_spec.
  revert H. rewrite FloatAxioms.ltb_spec. unfold SFltb.
  change (Prim2SF 0) with (S754_zero false).
  change (Prim2SF infinity) with (S754_infinity false).
  destruct (Prim2SF v) as [t|t| |t m e]; cbn; try discriminate;
    destruct t; try discriminate; reflexivity.
Qed.

Lemma mul_infinity_positive v : (0 <? v) = true -> v * infinity = infinity.
Proof.
  intros H. apply Prim2SF_inj. rewrite FloatAxioms.mul_spec.
  revert H. rewrite FloatAxioms.ltb_spec. unfold SFltb.
  change (Prim2SF 0) with (S754_zero false).
  change (Prim2SF infinity) with (S754_infinity false).
  destruct (Prim2SF v) as [t|t| |t m e]; cbn; try discriminate;
    destruct t; try discriminate; reflexivity.
Qed.

End F64Bound.

Module F64Arith.

Local Open Scope float_scope.

Lemma SFmul_1_r X :
  valid_binary X = true ->
  SF64mul X (S754_finite false 4503599627370496 (-52)) = X.
Proof.
  destruct X as [s|s| |s m e]; intros Hv; cbn [SF64mul SFmul].
  - unfold SF64mul, SFmul. now rewrite xorb_false_r.
  - unfold SF64mul, SFmul. now rewrite xorb_false_r.
  - reflexivity.
  - unfold SF64mul, SFmul. rewrite xorb_false_r.
    cbn [valid_binary] in Hv. unfold bounded, canonical_mantissa in Hv.
    apply andb_prop in Hv. destruct Hv as [Hc Hb].
    apply Z.eqb_eq in Hc.
    rewrite (Pos.mul_comm m).
    unfold binary_round_aux, shr_fexp.
    set (big := (4503599627370496 * m)%positive).
    assert (Hbig : big = Pos.iter xO m 52) by reflexivity.
    assert (Hd : Zdigits2 (Z.pos big) = (Z.pos (digits2_pos m) + 52)%Z).
    { unfold big. cbn [Pos.mul Zdigits2 digits2_pos]. lia. }
    rewrite Hd.
    replace (Z.pos (digits2_pos m) + 52 + (e + -52))%Z
      with (Z.pos (digits2_pos m) + e)%Z by lia.
    rewrite Hc.
    replace (e - (e + -52))%Z with 52%Z by lia.
    cbn [shr shr_record_of_loc].
    unfold big. cbn [Pos.mul iter_pos shr_1 orb].
    replace (e + -52 + 52)%Z with e by lia.
    cbn [shr_m loc_of_shr_record round_nearest_even Zdigits2].
    rewrite Hc. rewrite Z.sub_diag. cbn [shr shr_record_of_loc shr_m].
    rewrite Hb. reflexivity.
Qed.

(** Multiplication by [1] is exact. *)
Lemma mul_1_r x : x * 1 = x.
Proof.
  apply Prim2SF_inj. rewrite FloatAxioms.mul_spec.
  change (Prim2SF 1) with (S754_finite false 4503599627370496 (-52)).
  apply SFmul_1_r, Prim2SF_valid.
Qed.

End F64Arith.

(** ** Clamping on the rationals *)

Section ExactClamp.

Local Open Scope Q_scope.

(** On the rationals, the clamp of [doChildAnimation] is the identity inside
    the bound. *)
Lemma Q_clamp_inside (v m : Q) :
  - m <= v -> v <= m -> Qmax (Qmin v m) (- m) == v.
Proof.
  intros H1 H2.
  rewrite (Q.min_l v m H2). apply Q.max_l. exact H1.
Qed.

(** And lands inside the bound whenever the bound is not negative. *)
Lemma Q_clamp_bounds (v m : Q) :
  0 <= m -> - m <= Qmax (Qmin v m) (- m) /\ Qmax (Qmin v m) (- m) <= m.
Proof.
  intros Hm. split.
  - apply Q.le_max_r.
  - apply Q.max_lub.
    + apply Q.le_min_r.
    + lra.
Qed.

End ExactClamp.

(** ** [doChangeScale] *)

Section ChangeScale.

Context {num : Type} {N : JSNumber num} {ItemT : Type}.
Local Open Scope js_scope.

(** What [doChangeScale] stores, in any number type. *)
Lemma doChangeScale_target (delta : Position num) (r : num)
    (p : Position num) (c : Component num ItemT) :
  scaleTarget (doChangeScale delta r (Some p) c) = scaleTarget c * r /\
  x (transformBase (doChangeScale delta r (Some p) c))
    = x (transformBase c) + x delta * lit_1
      + (x p - x (transformBase c)) * (lit_1 - r) /\
  y (transformBase (doChangeScale delta r (Some p) c))
    = y (transformBase c) + y delta * lit_1
      + (y p - y (transformBase c)) * (lit_1 - r).
Proof. repeat split. Qed.

(** It touches nothing but the target. *)
Lemma doChangeScale_frame (delta : Position num) (r : num)
    (p : option (Position num)) (c : Component num ItemT) :
  let c' := doChangeScale delta r p c in
  doingChildAnimation c' = doingChildAnimation c /\
  childDoingZoom c' = childDoingZoom c /\
  childState c' = childState c /\
  viewPort c' = viewPort c /\
  absolutePosition c' = absolutePosition c /\
  state c' = state c /\
  effects c' = effects c.
Proof. repeat split. Qed.

End ChangeScale.

(** ** [doChildAnimation] *)

Section AnimationStart.

Variable num : Type.
Context {N : JSNumber num}.
Variable ItemT : Type.
Local Open Scope js_scope.

(** A call of [doChildAnimation] that is not skipped logs the animation it
    starts, with the duration it was given. *)
Lemma doChildAnimation_starts (timing : num) (cb : Callback)
    (c : Component num ItemT) :
  doingChildAnimation c = false ->
  let c' := doChildAnimation timing cb false c in
  effects c' = StartAnimation timing (scaleTarget c') (transformBase c') cb
                 :: effects c.
Proof.
  intros H. unfold doChildAnimation. rewrite H. reflexivity.
Qed.

Lemma doChildAnimation_skipped (timing : num) (cb : Callback)
    (c : Component num ItemT) :
  doingChildAnimation c = true ->
  doChildAnimation timing cb false c = c.
Proof.
  intros H. unfold doChildAnimation. rewrite H. reflexivity.
Qed.

End AnimationStart.

Section Bounds.

Variable num : Type.
Context {N : JSNumber num}.
Variable ItemT : Type.

(** What a call of [doChildAnimation] that is not skipped stores. *)
Lemma doChildAnimation_target (timing : num) (cb : Callback) (override : bool)
    (c : Component num ItemT) :
  doingChildAnimation c = false \/ override = true ->
  let c' := doChildAnimation timing cb override c in
  let s' := Math_max (Math_min (scaleTarget c) MAX_ZOOM) MIN_ZOOM in
  let maxX := (width (viewPort c) * Math_abs (lit_1 - s') / lit_2)%js in
  let maxY := (height (viewPort c) * Math_abs (lit_1 - s') / lit_2)%js in
  scaleTarget c' = s' /\
  x (transformBase c')
    = Math_max (Math_min (x (transformBase c) * lit_1)%js maxX) (- maxX)%js /\
  y (transformBase c')
    = Math_max (Math_min (y (transformBase c) * lit_1)%js maxY) (- maxY)%js /\
  doingChildAnimation c' = true /\
  childDoingZoom c' = true.
Proof.
  intros H. unfold doChildAnimation.
  replace (doingChildAnimation c && negb override) with false
    by (destruct H as [-> | ->]; [reflexivity | now rewrite andb_false_r]).
  destruct override; repeat split.
Qed.

End Bounds.

(** ** Gesture-state transitions *)

Section StateChange.

Variable num : Type.
Context {N : JSNumber num}.
Variable ItemT : Type.
Local Open Scope js_scope.

(** The state adopted is the argument, as the caller built it. *)
Lemma doChildStateChange_childState (to : ChildState num)
    (c : Component num ItemT) :
  childState (doChildStateChange to c) = to.
Proof. reflexivity. Qed.

(** A transition to OTHER changes the gesture state only. *)
Lemma doChildStateChange_OTHER (c : Component num ItemT) :
  doChildStateChange (spread_OTHER (childState c)) c
  = set_childState (StOther (lastTouch (childState c))) c.
Proof.
  unfold doChildStateChange, spread_OTHER. cbn [status ChildStatus_eqb negb].
  destruct (ChildStatus_eqb (status (childState c)) OTHER); reflexivity.
Qed.

Lemma doChildAnimation_childState (timing : num) (cb : Callback)
    (override : bool) (c : Component num ItemT) :
  childState (doChildAnimation timing cb override c) = childState c.
Proof.
  unfold doChildAnimation.
  destruct (doingChildAnimation c && negb override); [reflexivity|].
  destruct override; reflexivity.
Qed.

Lemma doChildReset_childState (timing : num) (c : Component num ItemT) :
  childState (doChildReset timing c) = childState c.
Proof.
  unfold doChildReset. rewrite doChildAnimation_childState. reflexivity.
Qed.

End StateChange.

(** ** The gesture state by reference *)

Section ReferenceFacts.

Variable num : Type.
Context {N : JSNumber num}.

Lemma write_length (a : nat) (o : ChildState num) (l : list (ChildState num)) :
  length (write a o l) = length l.
Proof.
  revert a. induction l as [|o' l IH]; intros [|a]; cbn; auto.
Qed.

Lemma read_write_same (a : nat) (o : ChildState num)
    (l : list (ChildState num)) :
  (a < length l)%nat -> nth_error (write a o l) a = Some o.
Proof.
  revert a. induction l as [|o' l IH]; intros [|a]; cbn; try lia; auto.
  intros H. apply IH. lia.
Qed.

Lemma read_write_other (a b : nat) (o : ChildState num)
    (l : list (ChildState num)) :
  a <> b -> nth_error (write a o l) b = nth_error l b.
Proof.
  revert a b. induction l as [|o' l IH]; intros [|a] [|b] H; cbn; auto.
  now elim H.
Qed.

(** The state adopted is the copy, with the [lastTouch] it copied; the write
    of [0] is found on the object that was dropped. *)
Lemma transition_to_OTHER_ref_spec (h : Store num) (cur : ChildState num) :
  read (this_childState h) h = Some cur ->
  let h' := transition_to_OTHER_ref h in
  this_childState h' = length (objects h) /\
  read (this_childState h') h' = Some (StOther (lastTouch cur)) /\
  read (this_childState h) h'
    = Some (if ChildStatus_eqb (status cur) OTHER then cur
            else set_lastTouch lit_0 cur).
Proof.
  intros Hr. unfold transition_to_OTHER_ref. rewrite Hr.
  cbn [alloc]. unfold doChildStateChange_ref, read in *. cbn [objects this_childState].
  assert (Hlt : (this_childState h < length (objects h))%nat)
    by (apply nth_error_Some; rewrite Hr; discriminate).
  rewrite (nth_error_app1 _ _ Hlt), Hr.
  rewrite nth_error_app2, Nat.sub_diag by lia. cbn [nth_error].
  cbn [spread_OTHER status ChildStatus_eqb negb].
  destruct (ChildStatus_eqb (status cur) OTHER); cbn [negb objects this_childState].
  - repeat split.
    + rewrite nth_error_app2, Nat.sub_diag by lia. reflexivity.
    + rewrite (nth_error_app1 _ _ Hlt). exact Hr.
  - repeat split.
    + rewrite read_write_other by lia.
      rewrite nth_error_app2, Nat.sub_diag by lia. reflexivity.
    + apply read_write_same. rewrite length_app. cbn. lia.
Qed.

End ReferenceFacts.

(** * The claims *)

Local Open Scope float_scope.

(** ** The pivot of [doChangeScale] *)

(** C1.  With a pivot [p], [doChangeScale delta r p] multiplies the target
    scale by [r] and sets the target translation to
    [t + delta + (p - t) * (1 - r)], [t] being the translation before: on
    binary64 with the operations in that order, and on the rationals.  So, in
    exact arithmetic, the point of the content drawn under [p] before the
    call is drawn at [p + delta] after it, whatever [r] is: the scale change
    does not move it, and with [delta = 0] it stays under [p].  On binary64,
    from scale 1 and translation [{0,0}] in a 300 x 300 viewport, the pinch
    100 -> 200 at the centre has ratio 2 and pivot [{0,0}], and leaves the
    target at scale 2, translation [{0,0}], before and after the clamp of
    [doChildAnimation]. *)
Theorem doChangeScale_pivot :
  (forall (ItemT : Type) (c : Component float ItemT)
          (delta p : Position float) (r : float),
      let c' := doChangeScale delta r (Some p) c in
      let t := transformBase c in
      scaleTarget c' = scaleTarget c * r /\
      x (transformBase c') = x t + x delta + (x p - x t) * (1 - r) /\
      y (transformBase c') = y t + y delta + (y p - y t) * (1 - r))
  /\
  (forall (ItemT : Type) (c : Component Q ItemT) (delta p : Position Q) (r : Q),
      let c' := doChangeScale delta r (Some p) c in
      let t := transformBase c in
      scaleTarget c' = (scaleTarget c * r)%Q /\
      (x (transformBase c') == x t + x delta + (x p - x t) * (1 - r))%Q /\
      (y (transformBase c') == y t + y delta + (y p - y t) * (1 - r))%Q /\
      (forall q : Position Q,
          Position_eq (screenOffset (scaleTarget c) t q) p ->
          Position_eq (screenOffset (scaleTarget c') (transformBase c') q)
                      {| x := (x p + x delta)%Q; y := (y p + y delta)%Q |}) /\
      (forall q : Position Q,
          Position_eq delta {| x := 0%Q; y := 0%Q |} ->
          Position_eq (screenOffset (scaleTarget c) t q) p ->
          Position_eq (screenOffset (scaleTarget c') (transformBase c') q) p))
  /\
  (forall (ItemT : Type) (c : Component float ItemT) (dt : float),
      viewPort c = {| width := 300; height := 300 |} ->
      scaleTarget c = 1 ->
      transformBase c = {| x := 0; y := 0 |} ->
      let prev := pinch_at_centre 100 in
      let next := pinch_at_centre 200 in
      let delta := {| x := 0; y := 0 |} in
      pinchScale prev next = 2 /\
      getCenterDisposition (center prev) c = {| x := 0; y := 0 |} /\
      scaleTarget (doChangeScale delta 2
                     (Some (getCenterDisposition (center prev) c)) c) = 2 /\
      transformBase (doChangeScale delta 2
                     (Some (getCenterDisposition (center prev) c)) c)
        = {| x := 0; y := 0 |} /\
      scaleTarget (doChildPinchMove prev next dt c) = 2 /\
      transformBase (doChildPinchMove prev next dt c) = {| x := 0; y := 0 |}).
Proof.
  split; [|split].
  - intros ItemT c delta p r c' t.
    destruct (doChangeScale_target delta r p c) as (Hs & Hx & Hy).
    fold c' in Hs, Hx, Hy. fold t in Hx, Hy.
    cbn [nadd nsub nmul lit_1 F64.number] in Hs, Hx, Hy.
    rewrite !F64Arith.mul_1_r in Hx, Hy.
    repeat split; assumption.
  - intros ItemT c delta p r c' t.
    assert (Hx : (x (transformBase c')
                  == x t + x delta + (x p - x t) * (1 - r))%Q).
    { unfold c', t; cbn. ring. }
    assert (Hy : (y (transformBase c')
                  == y t + y delta + (y p - y t) * (1 - r))%Q).
    { unfold c', t; cbn. ring. }
    assert (Hs : scaleTarget c' = (scaleTarget c * r)%Q) by reflexivity.
    assert (Hq : forall q : Position Q,
               Position_eq (screenOffset (scaleTarget c) t q) p ->
               Position_eq (screenOffset (scaleTarget c') (transformBase c') q)
                           {| x := (x p + x delta)%Q;
                              y := (y p + y delta)%Q |}).
    { intros q [Hpx Hpy]. unfold Position_eq in *. cbn [x y screenOffset] in *.
      cbn [nadd nmul Exact.number] in *.
      rewrite Hs, Hx, Hy. split.
      - rewrite <- Hpx. ring.
      - rewrite <- Hpy. ring. }
    split; [exact Hs | split; [exact Hx | split; [exact Hy | split]]].
    + exact Hq.
    + intros q [Hdx Hdy] Hp. destruct (Hq q Hp) as [Hqx Hqy].
      cbn [x y] in *. split.
      * rewrite Hqx, Hdx. ring.
      * rewrite Hqy, Hdy. ring.
  - intros ItemT c dt Hv Hs Ht prev next delta.
    destruct c as [anim vp ap st tb cs zoom rs eff]. cbn in Hv, Hs, Ht. subst.
    destruct anim; repeat split; reflexivity.
Qed.

Lemma doChangeScale_pivot_witness :
  let c := construct (num := Q) 300%Q 300%Q (@nil nat) 0%Z in
  let p := {| x := 50%Q; y := 20%Q |} in
  let delta := {| x := 0%Q; y := 0%Q |} in
  let c' := doChangeScale delta 2%Q (Some p) c in
  Position_eq (screenOffset (scaleTarget c') (transformBase c') p) p.
Proof.
  intros c p delta c'.
  apply (proj2 (proj2 (proj2 (proj2
           (proj1 (proj2 doChangeScale_pivot) nat c delta p 2%Q)))) p).
  - split; reflexivity.
  - split; reflexivity.
Defined.

(** ** The clamp of [doChildAnimation] *)

(** C2, as the code has it.  A call of [doChildAnimation] that runs its body
    (no animation running, or [override]) leaves the target scale in
    [[0.5, 5]] and each component of the target translation of magnitude at
    most [(dimension * |1 - scale|) / 2].  On binary64 this holds, with the
    bound computed as the code computes it, when the target scale and
    translation are numbers (not NaN) and the viewport dimensions are
    positive and finite; on the rationals, when the dimensions are not
    negative.  A call made while an animation is running, with [override]
    false, returns the component as it is: nothing is clamped. *)
Theorem doChildAnimation_bounds :
  (forall (ItemT : Type) (c : Component float ItemT)
          (timing : float) (cb : Callback) (override : bool),
      doingChildAnimation c = false \/ override = true ->
      PrimFloat.is_nan (scaleTarget c) = false ->
      PrimFloat.is_nan (x (transformBase c)) = false ->
      PrimFloat.is_nan (y (transformBase c)) = false ->
      (0 <? width (viewPort c)) = true ->
      (width (viewPort c) <? infinity) = true ->
      (0 <? height (viewPort c)) = true ->
      (height (viewPort c) <? infinity) = true ->
      let c' := doChildAnimation timing cb override c in
      (MIN_ZOOM <=? scaleTarget c') = true /\
      (scaleTarget c' <=? MAX_ZOOM) = true /\
      (abs (x (transformBase c'))
         <=? (width (viewPort c) * abs (1 - scaleTarget c')) / 2) = true /\
      (abs (y (transformBase c'))
         <=? (height (viewPort c) * abs (1 - scaleTarget c')) / 2) = true)
  /\
  (forall (ItemT : Type) (c : Component Q ItemT)
          (timing : Q) (cb : Callback) (override : bool),
      doingChildAnimation c = false \/ override = true ->
      (0 <= width (viewPort c))%Q ->
      (0 <= height (viewPort c))%Q ->
      let c' := doChildAnimation timing cb override c in
      ((1 # 2) <= scaleTarget c')%Q /\
      (scaleTarget c' <= 5)%Q /\
      (Qabs (x (transformBase c'))
         <= width (viewPort c) * Qabs (1 - scaleTarget c') / 2)%Q /\
      (Qabs (y (transformBase c'))
         <= height (viewPort c) * Qabs (1 - scaleTarget c') / 2)%Q)
  /\
  (forall (num : Type) (N : JSNumber num) (ItemT : Type)
          (c : Component num ItemT) (timing : num) (cb : Callback),
      doingChildAnimation c = true ->
      doChildAnimation timing cb false c = c).
Proof.
  split; [|split].
  - intros ItemT c timing cb override Hrun Hs Hx Hy Hw0 Hw1 Hh0 Hh1 c'.
    destruct (@doChildAnimation_target _ _ ItemT timing cb override c Hrun)
      as (Es & Ex & Ey & _).
    fold c' in Es, Ex, Ey.
    assert (Hb : (MIN_ZOOM <=? scaleTarget c') = true
                 /\ (scaleTarget c' <=? MAX_ZOOM) = true).
    { rewrite Es. apply (F64Facts.clamp_bounds (scaleTarget c) Hs).
      reflexivity. }
    destruct Hb as [Hlo Hhi].
    assert (Hclamp : forall v d,
               PrimFloat.is_nan v = false ->
               (0 <? d) = true -> (d <? infinity) = true ->
               let m := (d * abs (1 - scaleTarget c')) / 2 in
               (abs (F64.max (F64.min (v * 1) m) (- m)) <=? m) = true).
    { intros v d Hv Hd0 Hd1 m.
      assert (Hm : (0 <=? m) = true)
        by (apply F64Bound.bound_nonneg; assumption).
      rewrite F64Arith.mul_1_r.
      destruct (F64Facts.clamp_bounds v Hv
                  (F64Facts.opp_leb Hm)) as [H1 H2].
      apply F64Facts.abs_leb; assumption. }
    repeat split; try assumption.
    + rewrite Ex, <- Es. apply Hclamp; assumption.
    + rewrite Ey, <- Es. apply Hclamp; assumption.
  - intros ItemT c timing cb override Hrun Hw Hh c'.
    destruct (@doChildAnimation_target _ _ ItemT timing cb override c Hrun)
      as (Es & Ex & Ey & _).
    fold c' in Es, Ex, Ey.
    assert (Hlo : ((1 # 2) <= scaleTarget c')%Q).
    { rewrite Es. apply Q.le_max_r. }
    assert (Hhi : (scaleTarget c' <= 5)%Q).
    { rewrite Es. apply Q.max_lub; [apply Q.le_min_r | discriminate]. }
    assert (Hclamp : forall v d : Q,
               (0 <= d)%Q ->
               let m := (d * Qabs (1 - scaleTarget c') / 2)%Q in
               (Qabs (Qmax (Qmin (v * 1) m) (- m)) <= m)%Q).
    { intros v d Hd m.
      assert (Hm : (0 <= m)%Q).
      { unfold m, Qdiv. change (/ 2)%Q with (1 # 2)%Q.
        pose proof (Qabs_nonneg (1 - scaleTarget c')) as Ha.
        apply Qmult_le_0_compat; [apply Qmult_le_0_compat; assumption |].
        discriminate. }
      apply Qabs_Qle_condition. apply (Q_clamp_bounds (v * 1) Hm). }
    repeat split; try assumption.
    + rewrite Ex, <- Es. apply Hclamp; assumption.
    + rewrite Ey, <- Es. apply Hclamp; assumption.
  - intros num N ItemT c timing cb H. unfold doChildAnimation.
    rewrite H. reflexivity.
Qed.

Lemma doChildAnimation_bounds_witness :
  let c' := doChildAnimation 16 cb_noop false
              (doChangeScale {| x := 400; y := 0 |} 100 None gallery) in
  (MIN_ZOOM <=? scaleTarget c') = true /\
  (scaleTarget c' <=? MAX_ZOOM) = true /\
  (abs (x (transformBase c')) <=? (300 * abs (1 - scaleTarget c')) / 2) = true /\
  (abs (y (transformBase c')) <=? (300 * abs (1 - scaleTarget c')) / 2) = true.
Proof.
  apply (proj1 doChildAnimation_bounds nat
           (doChangeScale {| x := 400; y := 0 |} 100 None gallery)
           16 cb_noop false);
    try reflexivity.
  left. reflexivity.
Defined.

(** C2 fails for a call that is skipped.  A reset animation is running and
    two fingers have landed 10 apart; they open to 100; the ratio 10 takes
    the target scale from 1 to 10 in [doChangeScale], and the call of
    [doChildAnimation] that follows, with [override] false, returns at once:
    after it the target scale is 10, above 5.  The conditions on the calls
    that run are needed too: a target scale of [NaN] (two fingers that land
    on one point and stay there) stays [NaN], and with a viewport width of
    -300 the translation 150 exceeds the bound, -150. *)
Lemma doChildAnimation_bounds_counterexample :
  let c := run pinch_begun_during_reset gallery in
  let prev := {| center := {| x := 150; y := 150 |}; distance := 10 |} in
  let next := {| center := {| x := 150; y := 150 |}; distance := 100 |} in
  let c1 := doChangeScale {| x := 0; y := 0 |} (pinchScale prev next)
              (Some (getCenterDisposition (center prev) c)) c in
  let together :=
    run (coincident_fingers ++ [ResponderMove (pinch 1026 150 150)]) gallery in
  let mirrored :=
    doChildAnimation 300 cb_noop true
      (doChangeScale {| x := 0; y := 0 |} 2 (Some {| x := 50; y := 0 |})
         (construct (-300) 300 (@nil nat) 0%Z)) in
  (doingChildAnimation c = true /\
   scaleTarget c = 1 /\
   run (pinch_begun_during_reset ++ [ResponderMove (pinch 1526 100 200)]) gallery
     = set_childState (StDouble prev next 1526 1500)
         (doChildAnimation (-16) cb_noop false c1) /\
   doChildAnimation (-16) cb_noop false c1 = c1 /\
   scaleTarget (doChildAnimation (-16) cb_noop false c1) = 10 /\
   (scaleTarget (doChildAnimation (-16) cb_noop false c1) <=? MAX_ZOOM) = false)
  /\
  (firstn 1 (effects together)
     = [StartAnimation (-16) nan {| x := nan; y := nan |} cb_noop] /\
   (MIN_ZOOM <=? scaleTarget together) = false /\
   (scaleTarget together <=? MAX_ZOOM) = false)
  /\
  (scaleTarget mirrored = 2 /\
   x (transformBase mirrored) = 150 /\
   (-300 * abs (1 - scaleTarget mirrored)) / 2 = -150 /\
   (abs (x (transformBase mirrored))
      <=? (-300 * abs (1 - scaleTarget mirrored)) / 2) = false).
Proof. vm_compute. repeat split. Qed.

(** ** The pinch of distance zero *)

(** C3, as the code has it.  [doChildPinchMove] divides without a test: for
    a previous distance of [0] the ratio it applies is the binary64 quotient
    [next.distance / 0], which is [Infinity] for a positive [next.distance]
    and [NaN] for [next.distance = 0]; it is not 1.  Nothing is raised
    (the division is total); with the ratio [Infinity] a positive target
    scale becomes [Infinity] in [doChangeScale], and the clamp of
    [doChildAnimation], when the call is not skipped, brings it to
    [MAX_ZOOM]. *)
Theorem pinch_zero_distance :
  forall (ItemT : Type) (c : Component float ItemT)
         (prev next : PinchInfo float) (dt : float),
    distance prev = 0 ->
    let delta := {| x := x (center next) - x (center prev);
                    y := y (center next) - y (center prev) |} in
    let pivot := getCenterDisposition (center prev) c in
    doChildPinchMove prev next dt c
      = doChildAnimation dt cb_noop false
          (doChangeScale delta (distance next / 0) (Some pivot) c) /\
    (distance next = 0 -> pinchScale prev next = nan) /\
    ((0 <? distance next) = true ->
       pinchScale prev next = infinity /\
       ((0 <? scaleTarget c) = true ->
          scaleTarget (doChangeScale delta (pinchScale prev next)
                         (Some pivot) c) = infinity /\
          (doingChildAnimation c = false ->
             scaleTarget (doChildPinchMove prev next dt c) = MAX_ZOOM))).
Proof.
  intros ItemT c prev next dt Hp delta pivot.
  assert (E : pinchScale prev next = distance next / 0)
    by (unfold pinchScale; rewrite Hp; reflexivity).
  split; [|split].
  - unfold doChildPinchMove. cbv zeta. rewrite E. reflexivity.
  - intros Hn. rewrite E, Hn. reflexivity.
  - intros Hn.
    assert (Ei : pinchScale prev next = infinity)
      by (rewrite E; apply F64Bound.div_zero_positive, Hn).
    split; [exact Ei|]. intros Hs.
    assert (Es : scaleTarget (doChangeScale delta (pinchScale prev next)
                                (Some pivot) c) = infinity).
    { rewrite Ei. cbn [doChangeScale scaleTarget set_scaleTarget].
      apply (F64Bound.mul_infinity_positive Hs). }
    split; [exact Es|]. intros Ha.
    change (doChildPinchMove prev next dt c)
      with (doChildAnimation dt cb_noop false
              (doChangeScale delta (pinchScale prev next) (Some pivot) c)).
    destruct (@doChildAnimation_target float _ ItemT dt cb_noop false
                (doChangeScale delta (pinchScale prev next) (Some pivot) c)
                (or_introl Ha)) as (Et & _).
    rewrite Et, Es. reflexivity.
Qed.

Lemma pinch_zero_distance_witness :
  let prev := {| center := {| x := 150; y := 150 |}; distance := 0 |} in
  let next := {| center := {| x := 150; y := 150 |}; distance := 100 |} in
  pinchScale prev next = infinity /\
  scaleTarget (doChildPinchMove prev next (-16) gallery) = 5.
Proof.
  intros prev next.
  destruct (@pinch_zero_distance nat gallery prev next (-16) eq_refl)
    as (_ & _ & H).
  destruct (H eq_refl) as (H1 & H2).
  destruct (H2 eq_refl) as (_ & H3).
  split; [exact H1 | exact (H3 eq_refl)].
Defined.

(** C3 fails.  Two fingers come down on one point and then part to a distance
    of 100: the ratio applied is [Infinity], not 1; the target ends at scale
    5 with a translation of [NaN].  If the fingers stay together, the ratio
    is [NaN] and so are the target scale and translation. *)
Lemma pinch_zero_distance_counterexample :
  let c := run coincident_fingers gallery in
  let prev := {| center := {| x := 150; y := 150 |}; distance := 0 |} in
  let apart := {| center := {| x := 150; y := 150 |}; distance := 100 |} in
  childState c = StDouble prev prev 1010 1000 /\
  pinchScale prev apart = infinity /\
  (pinchScale prev apart === lit_1)%js = false /\
  PrimFloat.is_finite (pinchScale prev apart) = false /\
  run (coincident_fingers ++ [ResponderMove (pinch 1026 100 200)]) gallery
    = set_childState (StDouble prev apart 1026 1000)
        (doChildPinchMove prev apart (-16) c) /\
  scaleTarget (doChildPinchMove prev apart (-16) c) = 5 /\
  transformBase (doChildPinchMove prev apart (-16) c)
    = {| x := nan; y := nan |} /\
  pinchScale prev prev = nan /\
  scaleTarget (doChildPinchMove prev prev (-16) c) = nan /\
  PrimFloat.is_finite (scaleTarget (doChildPinchMove prev prev (-16) c)) = false.
Proof. vm_compute. repeat split. Qed.

(** ** The double tap *)

(** C4, as the code has it.  A touch-down with
    [timeStamp - lastTouch < 300] in a gesture state that is not SINGLE sets
    [lastTouch] to 0, leaves the gesture state's tag as it is (no drag is
    started) and calls [doChildDoubleTouch]: with zoom in progress that is
    [doChildReset(300)]; otherwise it is [doChangeScale({0,0}, 2, offset)],
    [offset] being the touch relative to the centre of the viewport, followed
    by an overriding [doChildAnimation(300)]: the target scale is multiplied
    by 2 and clamped.  From the identity target (scale 1, translation
    [{0,0}]) and a touch inside the viewport this gives, on the rationals,
    scale 2 and translation [offset * (1 - 2)]; on binary64, in a gallery 300
    wide, a double tap 50 px right of the centre gives scale 2 and
    translation [{-50, 0}]. *)
Theorem double_tap_zoom :
  (forall (num : Type) (N : JSNumber num) (ItemT : Type)
          (event : GestureResponderEvent num) (c : Component num ItemT),
      let timediff := (timeStamp event - lastTouch (childState c))%js in
      let newPos :=
        {| x := (pageX (nativeEvent event) - x (absolutePosition c))%js;
           y := (pageY (nativeEvent event) - y (absolutePosition c))%js |} in
      let c0 := set_childState (set_lastTouch lit_0 (childState c)) c in
      let c' := onStartTouchResponder event c in
      (timediff <? DOUBLE_TOUCH_THRES)%js = true ->
      status (childState c) <> SINGLE ->
      lastTouch (childState c') = lit_0 /\
      status (childState c') = status (childState c) /\
      c' = doChildDoubleTouch newPos timediff c0 /\
      (childDoingZoom c = true -> c' = doChildReset SOFT_ANIMIATION_TIME c0) /\
      (childDoingZoom c = false ->
         c' = doChildAnimation SOFT_ANIMIATION_TIME cb_noop true
                (doChangeScale {| x := lit_0; y := lit_0 |} DEFAULT_ZOOM
                   (Some (getCenterDisposition newPos c0)) c0)))
  /\
  (forall (ItemT : Type) (c : Component Q ItemT) (touch : Position Q) (dt : Q),
      childDoingZoom c = false ->
      scaleTarget c = 1%Q ->
      transformBase c = {| x := 0%Q; y := 0%Q |} ->
      (0 <= x touch)%Q -> (x touch <= width (viewPort c))%Q ->
      (0 <= y touch)%Q -> (y touch <= height (viewPort c))%Q ->
      let offset := getCenterDisposition touch c in
      let c' := doChildDoubleTouch touch dt c in
      (scaleTarget c' == 2)%Q /\
      (x (transformBase c') == x offset * (1 - 2))%Q /\
      (y (transformBase c') == y offset * (1 - 2))%Q)
  /\
  (let c1 := snd (onStartShouldSetResponder (tap 1000 200 150) gallery) in
   let c2 := onStartTouchResponder (tap 1100 200 150) c1 in
   childState c1 = StOther 1000%float /\
   childDoingZoom c1 = false /\
   getCenterDisposition {| x := 200%float; y := 150%float |} c1
     = {| x := 50%float; y := 0%float |} /\
   scaleTarget c2 = 2%float /\
   transformBase c2 = {| x := (-50)%float; y := 0%float |} /\
   childState c2 = StOther 0%float).
Proof.
  split; [|split].
  - intros num N ItemT event c timediff newPos c0 c' Ht Hs.
    assert (E : c' = doChildDoubleTouch newPos timediff c0).
    { unfold c', onStartTouchResponder. fold timediff. rewrite Ht.
      cbv zeta. fold newPos. fold c0.
      replace (status (childState c0)) with (status (childState c))
        by (unfold c0; cbn; destruct (childState c); reflexivity).
      destruct (status (childState c)); try reflexivity. now elim Hs. }
    assert (Hcs : childState c' = childState c0).
    { rewrite E. unfold doChildDoubleTouch.
      destruct (negb (childDoingZoom c0)).
      - cbv zeta. rewrite doChildAnimation_childState. reflexivity.
      - apply doChildReset_childState. }
    repeat split.
    + rewrite Hcs. unfold c0. cbn. destruct (childState c); reflexivity.
    + rewrite Hcs. unfold c0. cbn. destruct (childState c); reflexivity.
    + exact E.
    + intros Hz. rewrite E. unfold doChildDoubleTouch.
      replace (childDoingZoom c0) with true by (symmetry; exact Hz).
      reflexivity.
    + intros Hz. rewrite E. unfold doChildDoubleTouch.
      replace (childDoingZoom c0) with false by (symmetry; exact Hz).
      reflexivity.
  - intros ItemT c touch dt Hz Hs Ht Hx0 Hx1 Hy0 Hy1 offset c'.
    destruct c as [anim [w h] ap st tb cs zoom rs eff].
    cbn in Hz, Hs, Ht, Hx0, Hx1, Hy0, Hy1. subst zoom st tb.
    destruct touch as [tx ty]. cbn in Hx0, Hx1, Hy0, Hy1.
    unfold c', offset, doChildDoubleTouch, doChildAnimation, doChangeScale,
      getCenterDisposition, centerPosition.
    cbn -[Qmax Qmin Qabs Qplus Qminus Qmult Qdiv Qopp].
    rewrite andb_false_r.
    cbn -[Qmax Qmin Qabs Qplus Qminus Qmult Qdiv Qopp].
    change (Qmax (Qmin (1 * 2) 5) (1 # 2)) with (2 # 1)%Q.
    change (Qabs (1 - (2 # 1))) with 1%Q.
    split; [reflexivity | split].
    + rewrite Q_clamp_inside; [field | | ];
        unfold Qdiv; change (/ 2)%Q with (1 # 2)%Q; lra.
    + rewrite Q_clamp_inside; [field | | ];
        unfold Qdiv; change (/ 2)%Q with (1 # 2)%Q; lra.
  - vm_compute. repeat split.
Qed.

Lemma double_tap_zoom_witness :
  let c1 := snd (onStartShouldSetResponder (tap 1000 200 150) gallery) in
  let c2 := onStartTouchResponder (tap 1100 200 150) c1 in
  lastTouch (childState c2) = 0 /\ status (childState c2) = OTHER.
Proof.
  intros c1 c2.
  destruct (proj1 double_tap_zoom float F64.number nat
              (tap 1100 200 150) c1 eq_refl) as (H1 & H2 & _).
  - discriminate.
  - split; [exact H1 | exact H2].
Defined.

(** C4 fails.  After [pinch_during_reset] zoom is not in progress and the
    target scale is 3: the pinch opened during the reset animation, whose
    completion cleared the flag.  The second tap of a double tap arrives 100
    ms after the first, in gesture state OTHER, and the target scale becomes
    5 (3 * 2, clamped), not 2. *)
Lemma double_tap_zoom_counterexample :
  let c := run pinch_during_reset gallery in
  let c1 := snd (onStartShouldSetResponder (tap 3000 200 150) c) in
  let second := tap 3100 200 150 in
  let c2 := onStartTouchResponder second c1 in
  childDoingZoom c = false /\
  scaleTarget c = 3 /\
  childDoingZoom c1 = false /\
  status (childState c1) = OTHER /\
  (timeStamp second - lastTouch (childState c1) <? DOUBLE_TOUCH_THRES)%js
    = true /\
  run (pinch_during_reset ++ double_tap) gallery
    = set_childState (StOther 0) c2 /\
  lastTouch (childState c2) = 0 /\
  scaleTarget c2 = 5 /\
  (scaleTarget c2 === DEFAULT_ZOOM)%js = false.
Proof. vm_compute. repeat split. Qed.

(** ** [doChildMove] *)

(** C5.  [doChildMove] returns the component as it is (target, flags and
    effect log: no animation is started) unless zoom is in progress and the
    target scale is [!== 1]; when both hold it is
    [doChangeScale(next - prev, 1)] with no pivot, followed by
    [doChildAnimation(timeDiff)], which, when it is not skipped, starts an
    animation of duration [timeDiff].  That scale change keeps the target
    scale (exactly, on binary64) and, on the rationals, adds [next - prev] to
    the target translation. *)
Theorem doChildMove_spec :
  (forall (num : Type) (N : JSNumber num) (ItemT : Type)
          (prev next : Position num) (timeDiff : num)
          (c : Component num ItemT),
      let delta := {| x := (x next - x prev)%js; y := (y next - y prev)%js |} in
      (childDoingZoom c = false \/ (scaleTarget c === lit_1)%js = true ->
         doChildMove prev next timeDiff c = c) /\
      (childDoingZoom c = true -> (scaleTarget c !== lit_1)%js = true ->
         doChildMove prev next timeDiff c
           = doChildAnimation timeDiff cb_noop false
               (doChangeScale delta lit_1 None c) /\
         (doingChildAnimation c = false ->
            exists s t,
              effects (doChildMove prev next timeDiff c)
                = StartAnimation timeDiff s t cb_noop :: effects c)))
  /\
  (forall (ItemT : Type) (c : Component float ItemT) (delta : Position float),
      scaleTarget (doChangeScale delta 1 None c) = scaleTarget c)
  /\
  (forall (ItemT : Type) (c : Component Q ItemT) (prev next : Position Q),
      let delta := {| x := (x next - x prev)%Q; y := (y next - y prev)%Q |} in
      let c' := doChangeScale delta 1%Q None c in
      (scaleTarget c' == scaleTarget c)%Q /\
      (x (transformBase c') == x (transformBase c) + (x next - x prev))%Q /\
      (y (transformBase c') == y (transformBase c) + (y next - y prev))%Q).
Proof.
  split; [|split].
  - intros num N ItemT prev next timeDiff c delta. split.
    + intros [H | H]; unfold doChildMove; rewrite H.
      * reflexivity.
      * rewrite andb_false_r. reflexivity.
    + intros Hz Hs. unfold doChildMove. rewrite Hz, Hs. cbn [andb].
      split; [reflexivity|].
      intros Ha. eexists. eexists.
      fold delta.
      apply (doChildAnimation_starts timeDiff cb_noop
               (doChangeScale delta lit_1 None c)).
      exact Ha.
  - intros ItemT c delta. cbn [doChangeScale scaleTarget set_scaleTarget].
    apply F64Arith.mul_1_r.
  - intros ItemT c prev next delta c'. unfold c', delta.
    cbn. repeat split; ring.
Qed.

(** The drag of the scenario: [(10, 0)] with zoom not in progress. *)
Lemma doChildMove_spec_witness :
  let c := construct (num := float) 300%float 300%float (@nil nat) 0%Z in
  doChildMove {| x := 100%float; y := 100%float |}
              {| x := 110%float; y := 100%float |} 16%float c = c.
Proof.
  intros c.
  apply (proj1 (proj1 doChildMove_spec float F64.number nat
                  {| x := 100%float; y := 100%float |}
                  {| x := 110%float; y := 100%float |} 16%float c)).
  left. reflexivity.
Defined.

(** ** The responder lifecycle *)

(** C6, as the code has it.  Release, terminate and reject each force the
    gesture state to OTHER (keeping [lastTouch]); release then calls
    [doChildReset(300)] when the target scale is strictly between 0 and 1.3;
    terminate and reject do nothing more: target, flags and effect log stay
    as they were. *)
Theorem responder_lifecycle :
  forall (num : Type) (N : JSNumber num) (ItemT : Type)
         (c : Component num ItemT),
    let c1 := set_childState (StOther (lastTouch (childState c))) c in
    status (childState (onResponderRelease c)) = OTHER /\
    onResponderRelease c
      = (if ((scaleTarget c >? MIN_ZOOM_RESET)
             && (scaleTarget c <? MAX_ZOOM_RESET))%js
         then doChildReset SOFT_ANIMIATION_TIME c1 else c1) /\
    onResponderTerminate c = c1 /\
    onResponderReject c = c1.
Proof.
  intros num N ItemT c c1.
  assert (H : onResponderRelease c
              = (if ((scaleTarget c >? MIN_ZOOM_RESET)
                     && (scaleTarget c <? MAX_ZOOM_RESET))%js
                 then doChildReset SOFT_ANIMIATION_TIME c1 else c1)).
  { unfold onResponderRelease. rewrite doChildStateChange_OTHER. reflexivity. }
  repeat split.
  - rewrite H.
    destruct ((scaleTarget c >? MIN_ZOOM_RESET)
              && (scaleTarget c <? MAX_ZOOM_RESET))%js.
    + rewrite doChildReset_childState. reflexivity.
    + reflexivity.
  - exact H.
  - apply doChildStateChange_OTHER.
  - apply doChildStateChange_OTHER.
Qed.

(** C6 fails for terminate and reject: with the target scale at 1.2, inside
    (0, 1.3), neither resets; the target scale stays 1.2 and nothing is added
    to the effect log, where release starts the reset animation. *)
Lemma responder_lifecycle_counterexample :
  let c := run pinch_to_1_2 gallery in
  ((scaleTarget c >? MIN_ZOOM_RESET) && (scaleTarget c <? MAX_ZOOM_RESET))%js
    = true /\
  (scaleTarget (onResponderTerminate c) === lit_1)%js = false /\
  effects (onResponderTerminate c) = effects c /\
  (scaleTarget (onResponderReject c) === lit_1)%js = false /\
  effects (onResponderReject c) = effects c /\
  (scaleTarget (onResponderRelease c) === lit_1)%js = true /\
  effects (onResponderRelease c)
    = StartAnimation 300%float 1%float {| x := 0%float; y := 0%float |}
        cb_clearZoom
      :: StopTransformAnimation :: StopScaleAnimation
      :: effects c.
Proof. vm_compute. repeat split. Qed.

(** ** Responder negotiation *)

(** C7, as the code has it.  [onMoveShouldSetResponder],
    [onStartShouldSetResponderCapture] and [onMoveShouldSetResponderCapture]
    return [childDoingZoom || touches.length > 1],
    [onResponderTerminationRequest] returns its negation, and all four leave
    the component as it is.  [onStartShouldSetResponder] returns
    [childDoingZoom] alone and is not pure: when zoom is not in progress and
    the event has exactly one touch it runs [onStartTouchResponder] (tap and
    double-tap detection), and in every case it then forces the gesture
    state to OTHER. *)
Theorem responder_negotiation :
  forall (num : Type) (N : JSNumber num) (ItemT : Type)
         (event : GestureResponderEvent num) (c : Component num ItemT),
    let claim := childDoingZoom c || moreThanOneTouch event in
    onMoveShouldSetResponder event c = (claim, c) /\
    onResponderTerminationRequest event c = (negb claim, c) /\
    onStartShouldSetResponderCapture event c = (claim, c) /\
    onMoveShouldSetResponderCapture event c = (claim, c) /\
    fst (onStartShouldSetResponder event c) = childDoingZoom c /\
    status (childState (snd (onStartShouldSetResponder event c))) = OTHER /\
    (childDoingZoom c = true \/ length (touches (nativeEvent event)) <> 1%nat ->
       snd (onStartShouldSetResponder event c)
         = set_childState (StOther (lastTouch (childState c))) c) /\
    (childDoingZoom c = false ->
     length (touches (nativeEvent event)) = 1%nat ->
       snd (onStartShouldSetResponder event c)
         = let c' := onStartTouchResponder event c in
           set_childState (StOther (lastTouch (childState c'))) c').
Proof.
  intros num N ItemT event c claim.
  repeat split; try reflexivity.
  - intros H. unfold onStartShouldSetResponder. cbv zeta. cbn [snd].
    assert (E : negb (childDoingZoom c)
                && (length (touches (nativeEvent event)) =? 1)%nat = false).
    { destruct H as [H | H].
      - rewrite H. reflexivity.
      - apply Nat.eqb_neq in H. rewrite H. apply andb_false_r. }
    rewrite E. apply doChildStateChange_OTHER.
  - intros Hz Hl. unfold onStartShouldSetResponder. cbv zeta. cbn [snd].
    rewrite Hz, Hl. cbn [negb andb Nat.eqb].
    apply doChildStateChange_OTHER.
Qed.

Lemma responder_negotiation_witness :
  snd (onStartShouldSetResponder (pinch 1000 100 200) gallery)
  = set_childState (StOther 0) gallery.
Proof.
  apply (proj1 (proj2 (proj2 (proj2 (proj2 (proj2 (proj2
           (responder_negotiation F64.number
              (pinch 1000 100 200) gallery)))))))).
  right. discriminate.
Defined.

(** C7 fails for [onStartShouldSetResponder]: with two touches and zoom not
    in progress it returns [false]; and it changes the component: a first tap
    records [lastTouch], a second one 100 ms later sets the target to scale
    2 and raises both flags. *)
Lemma responder_negotiation_counterexample :
  let two := pinch 1000 100 200 in
  let c1 := snd (onStartShouldSetResponder (tap 1000 200 150) gallery) in
  let c2 := snd (onStartShouldSetResponder (tap 1100 200 150) c1) in
  childDoingZoom gallery || moreThanOneTouch two = true /\
  fst (onStartShouldSetResponder two gallery) = false /\
  childState gallery = StOther 0%float /\
  childState c1 = StOther 1000%float /\
  scaleTarget c1 = 1%float /\
  scaleTarget c2 = 2%float /\
  transformBase c2 = {| x := (-50)%float; y := 0%float |} /\
  childDoingZoom c1 = false /\ childDoingZoom c2 = true /\
  doingChildAnimation c1 = false /\ doingChildAnimation c2 = true.
Proof. vm_compute. repeat split. Qed.

(** ** [lastTouch] across transitions *)

(** C8, on the code.  [doChildStateChange(to)] adopts [to] as the caller
    built it.  The write [this.childState.lastTouch = 0] goes to the object
    held before the call, which [this.childState = to] then drops; [to] is a
    spread of that object, made before the call, and carries the [lastTouch]
    it copied.  So a transition keeps [lastTouch], also when the tag changes
    and the new tag is not SINGLE.  After a first tap at time 1000 the
    gesture state is SINGLE with [lastTouch = 1000]; the transition to OTHER
    that follows leaves [lastTouch = 1000], not 0.  With the state kept by
    reference the same is read off the store: the object adopted has the old
    [lastTouch], and the 0 is on the object that was dropped. *)
Theorem lastTouch_kept_across_transition :
  (forall (num : Type) (N : JSNumber num) (ItemT : Type)
          (to : ChildState num) (c : Component num ItemT),
      childState (doChildStateChange to c) = to /\
      lastTouch (childState (doChildStateChange (spread_OTHER (childState c)) c))
        = lastTouch (childState c) /\
      lastTouch (childState (onResponderRelease c)) = lastTouch (childState c) /\
      lastTouch (childState (onResponderTerminate c)) = lastTouch (childState c) /\
      lastTouch (childState (onResponderReject c)) = lastTouch (childState c))
  /\
  (let c := onStartTouchResponder (tap 1000 200 150) gallery in
   let c' := doChildStateChange (spread_OTHER (childState c)) c in
   status (childState c) = SINGLE /\
   lastTouch (childState c) = 1000 /\
   status (childState c') = OTHER /\
   lastTouch (childState c') = 1000 /\
   (lastTouch (childState c') === lit_0)%js = false /\
   c' = snd (onStartShouldSetResponder (tap 1000 200 150) gallery) /\
   childState (onResponderRelease c) = StOther 1000 /\
   childState (onMoveTouchResponder
                 {| timeStamp := 1016;
                    nativeEvent := {| pageX := 200; pageY := 150;
                                      touches := [] |} |} c)
     = StOther 1000)
  /\
  (forall (num : Type) (N : JSNumber num) (h : Store num)
          (cur : ChildState num),
      read (this_childState h) h = Some cur ->
      status cur <> OTHER ->
      let h' := transition_to_OTHER_ref h in
      read (this_childState h') h' = Some (StOther (lastTouch cur)) /\
      read (this_childState h) h' = Some (set_lastTouch lit_0 cur)).
Proof.
  split; [|split].
  - intros num N ItemT to c.
    unfold onResponderRelease, onResponderTerminate, onResponderReject.
    cbv zeta. rewrite doChildStateChange_OTHER.
    repeat split.
    destruct ((scaleTarget _ >? MIN_ZOOM_RESET)
              && (scaleTarget _ <? MAX_ZOOM_RESET))%js;
      [rewrite doChildReset_childState|]; reflexivity.
  - vm_compute. repeat split.
  - intros num N h cur Hr Hs h'.
    destruct (transition_to_OTHER_ref_spec h Hr) as (_ & H1 & H2).
    fold h' in H1, H2. split; [exact H1|].
    rewrite H2. destruct (status cur); try reflexivity. now elim Hs.
Qed.

(** A gesture state held in a store of one object: SINGLE, touched at 1000. *)
Lemma lastTouch_kept_across_transition_witness :
  let cur := StSingle {| x := 200; y := 150 |} {| x := 200; y := 150 |}
               1000 1000 in
  let h := {| objects := [cur]; this_childState := 0 |} in
  let h' := transition_to_OTHER_ref h in
  read (this_childState h') h' = Some (StOther 1000) /\
  read 0 h' = Some (set_lastTouch 0 cur).
Proof.
  intros cur h h'.
  apply (proj2 (proj2 lastTouch_kept_across_transition) float F64.number
           h cur eq_refl).
  discriminate.
Defined.

(** ** Animation completion *)

(** C9, as the code has it.  The closure [doChildAnimation] registers runs
    its callback and clears "animation running" whenever it is invoked: it
    holds no mark of the animation it belongs to and tests nothing, so it
    does the same for an animation that an override has superseded.  What
    an override does is to call [stopAnimation] on the two animated values
    before it sets the two flags and starts the new animation: a superseded
    closure that is invoked at that stop is overwritten (the override ends
    in the state it would have reached without the invocation), one that is
    invoked later is not. *)
Theorem animationEnd_unconditional :
  forall (num : Type) (N : JSNumber num) (M : JSMath num) (ItemT : Type)
         (c : Component num ItemT),
    (forall cb, doingChildAnimation (animationEnd cb c) = false) /\
    childDoingZoom (animationEnd cb_clearZoom c) = false /\
    childDoingZoom (animationEnd cb_noop c) = childDoingZoom c /\
    (forall cb,
        scaleTarget (animationEnd cb c) = scaleTarget c /\
        transformBase (animationEnd cb c) = transformBase c /\
        childState (animationEnd cb c) = childState c /\
        effects (animationEnd cb c) = effects c) /\
    (forall k cb,
        nth_error (started (effects c)) k = Some cb ->
        dispatch (AnimationEnd k) c = animationEnd cb c) /\
    (forall timing cb,
        let c' := doChildAnimation timing cb true c in
        effects c'
          = StartAnimation timing (scaleTarget c') (transformBase c') cb
            :: StopTransformAnimation :: StopScaleAnimation :: effects c /\
        started (effects c') = started (effects c) ++ [cb] /\
        doingChildAnimation c' = true /\
        childDoingZoom c' = true) /\
    (forall timing cb stale,
        doChildAnimation timing cb true (animationEnd stale c)
          = doChildAnimation timing cb true c /\
        doChildReset timing (animationEnd stale c) = doChildReset timing c).
Proof.
  intros num N M ItemT c. repeat split.
  - destruct cb; reflexivity.
  - destruct cb; reflexivity.
  - destruct cb; reflexivity.
  - destruct cb; reflexivity.
  - intros k cb H. cbn [dispatch]. rewrite H. reflexivity.
  - unfold doChildAnimation. rewrite andb_false_r. reflexivity.
  - unfold doChildAnimation. rewrite andb_false_r. reflexivity.
  - unfold doChildAnimation. rewrite andb_false_r. reflexivity.
  - unfold doChildAnimation. rewrite andb_false_r. reflexivity.
  - unfold doChildAnimation. rewrite !andb_false_r. destruct stale; reflexivity.
  - unfold doChildReset, doChildAnimation. rewrite !andb_false_r.
    destruct stale; reflexivity.
Qed.

Lemma animationEnd_unconditional_witness :
  dispatch (AnimationEnd 0) (run zoom_then_reset gallery)
  = animationEnd cb_noop (run zoom_then_reset gallery).
Proof.
  apply (proj1 (proj2 (proj2 (proj2 (proj2
           (animationEnd_unconditional F64.number F64.math
              (run zoom_then_reset gallery))))))).
  reflexivity.
Defined.

(** C9 fails.  After [zoom_then_reset] two animations have been started, the
    second overriding the first, and "animation running" is set; the
    completion of the first, superseded, animation clears it.  One release
    later a third animation (a reset again) has overridden the second; the
    completion of the second clears "zoom in progress" and "animation
    running" while the third is in flight. *)
Lemma animationEnd_stale_counterexample :
  let c := run zoom_then_reset gallery in
  let c' := run (zoom_then_reset ++ [ResponderRelease]) gallery in
  started (effects c) = [cb_noop; cb_clearZoom] /\
  firstn 3 (effects c)
    = [ StartAnimation 300%float 1%float {| x := 0%float; y := 0%float |}
          cb_clearZoom;
        StopTransformAnimation; StopScaleAnimation ] /\
  doingChildAnimation c = true /\
  doingChildAnimation (dispatch (AnimationEnd 0) c) = false /\
  started (effects c') = [cb_noop; cb_clearZoom; cb_clearZoom] /\
  doingChildAnimation c' = true /\
  childDoingZoom c' = true /\
  doingChildAnimation (dispatch (AnimationEnd 1) c') = false /\
  childDoingZoom (dispatch (AnimationEnd 1) c') = false.
Proof. vm_compute. repeat split. Qed.

(** ** [lastIndex] *)

(** C10.  [lastIndex()] is [data.length - 1] for a non-empty [data] and [0]
    for an empty one; it is never negative. *)
Theorem lastIndex_spec :
  forall (num ItemT : Type) (c : Component num ItemT),
    (data (state c) <> [] ->
       lastIndex c = (Z.of_nat (length (data (state c))) - 1)%Z) /\
    (data (state c) = [] -> lastIndex c = 0%Z) /\
    (0 <= lastIndex c)%Z.
Proof.
  intros num ItemT c. unfold lastIndex.
  destruct (data (state c)) as [|a l]; cbn [length].
  - repeat split; try reflexivity. intros H; now elim H.
  - replace (0 <? Z.of_nat (S (length l)))%Z with true
      by (symmetry; apply Z.ltb_lt; lia).
    repeat split; try lia. intros H; discriminate H.
Qed.

Lemma lastIndex_spec_witness :
  lastIndex (construct (num := float) 300%float 300%float [7%nat; 8%nat; 9%nat] 0%Z) = 2%Z /\
  lastIndex (construct (num := float) 300%float 300%float (@nil nat) 0%Z) = 0%Z.
Proof.
  split.
  - apply (proj1 (lastIndex_spec
                    (construct (num := float) 300%float 300%float
                               [7%nat; 8%nat; 9%nat] 0%Z))).
    discriminate.
  - apply (proj1 (proj2 (lastIndex_spec
                    (construct (num := float) 300%float 300%float
                               (@nil nat) 0%Z)))).
    reflexivity.
Defined.

(** * Further properties *)

(** ** What a gesture keeps *)

Section TraceFacts.

Variable num : Type.
Context {N : JSNumber num} {M : JSMath num}.
Variable ItemT : Type.
Local Open Scope js_scope.

Lemma after_refl (c : Component num ItemT) : after c c.
Proof.
  repeat split; auto. exists []. split; [reflexivity | constructor].
Qed.

Lemma after_trans (c1 c2 c3 : Component num ItemT) :
  after c1 c2 -> after c2 c3 -> after c1 c3.
Proof.
  intros (V1 & A1 & S1 & (l1 & E1 & F1) & I1)
         (V2 & A2 & S2 & (l2 & E2 & F2) & I2).
  repeat split; try congruence; auto.
  exists (l2 ++ l1). split.
  - rewrite E2, E1. apply app_assoc.
  - apply Forall_app. split; [|exact F1]. rewrite S1, V1 in F2. exact F2.
Qed.

(** A step that leaves the log and the flags as they are. *)
Lemma after_silent (c c' : Component num ItemT) :
  viewPort c' = viewPort c -> absolutePosition c' = absolutePosition c ->
  state c' = state c -> effects c' = effects c ->
  doingChildAnimation c' = doingChildAnimation c ->
  childDoingZoom c' = childDoingZoom c ->
  after c c'.
Proof.
  intros V A S E D Z. repeat split; auto.
  - exists []. split; [exact E | constructor].
  - unfold flags_ok. now rewrite D, Z.
Qed.

Lemma after_doChangeScale (d : Position num) (r : num)
    (p : option (Position num)) (c : Component num ItemT) :
  after c (doChangeScale d r p c).
Proof. apply after_silent; reflexivity. Qed.

Lemma after_doChildAnimation (t : num) (o : bool) (c : Component num ItemT) :
  after c (doChildAnimation t cb_noop o c).
Proof.
  unfold doChildAnimation.
  destruct (doingChildAnimation c && negb o); [apply after_refl|].
  destruct o; repeat split; auto.
  - eexists [_; _; _]. split; [reflexivity|].
    repeat constructor; cbn; eauto; discriminate.
  - eexists [_]. split; [reflexivity|].
    repeat constructor; cbn; eauto; discriminate.
Qed.

Lemma after_doChildReset (t : num) (c : Component num ItemT) :
  after c (doChildReset t c).
Proof.
  unfold doChildReset, doChildAnimation. cbv zeta.
  rewrite andb_false_r.
  repeat split; auto.
  eexists [_; _; _]. split; [reflexivity|].
  repeat constructor; cbn; eauto.
Qed.

Lemma after_animationEnd (cb : Callback) (c : Component num ItemT) :
  after c (animationEnd cb c).
Proof.
  destruct cb; repeat split; auto; exists [];
    (split; [reflexivity | constructor]).
Qed.

Lemma after_set_childState (s : ChildState num) (c : Component num ItemT) :
  after c (set_childState s c).
Proof. apply after_silent; reflexivity. Qed.

Lemma after_doChildStateChange (to : ChildState num)
    (c : Component num ItemT) :
  after c (doChildStateChange to c).
Proof.
  unfold doChildStateChange.
  destruct (negb (ChildStatus_eqb (status (childState c)) (status to)));
    [ destruct (negb (ChildStatus_eqb (status to) SINGLE));
      destruct (ChildStatus_eqb (status to) DOUBLE) | ];
    try (apply after_silent; reflexivity).
  all: repeat split; auto;
    try (unfold flags_ok; cbn; intros _; apply implb_true_r);
    eexists [_]; split; [reflexivity|]; repeat constructor.
Qed.

Lemma after_doChildDoubleTouch (p : Position num) (t : num)
    (c : Component num ItemT) :
  after c (doChildDoubleTouch p t c).
Proof.
  unfold doChildDoubleTouch. destruct (negb (childDoingZoom c)).
  - eapply after_trans;
      [apply after_doChangeScale | apply after_doChildAnimation].
  - apply after_doChildReset.
Qed.

Lemma after_doChildPinchMove (p n : PinchInfo num) (t : num)
    (c : Component num ItemT) :
  after c (doChildPinchMove p n t c).
Proof.
  unfold doChildPinchMove.
  eapply after_trans;
    [apply after_doChangeScale | apply after_doChildAnimation].
Qed.

Lemma after_doChildMove (p n : Position num) (t : num)
    (c : Component num ItemT) :
  after c (doChildMove p n t c).
Proof.
  unfold doChildMove.
  destruct (childDoingZoom c && (scaleTarget c !== lit_1)); [|apply after_refl].
  eapply after_trans;
    [apply after_doChangeScale | apply after_doChildAnimation].
Qed.

Lemma after_onStartTouchResponder (e : GestureResponderEvent num)
    (c : Component num ItemT) :
  after c (onStartTouchResponder e c).
Proof.
  unfold onStartTouchResponder.
  destruct (_ <? DOUBLE_TOUCH_THRES).
  - cbv zeta.
    destruct (negb (ChildStatus_eqb _ SINGLE)).
    + eapply after_trans;
        [apply after_set_childState | apply after_doChildDoubleTouch].
    + apply after_set_childState.
  - eapply after_trans;
      [apply after_set_childState | apply after_doChildStateChange].
Qed.

Lemma after_onMoveTouchResponder (e : GestureResponderEvent num)
    (c : Component num ItemT) :
  after c (onMoveTouchResponder e c).
Proof.
  unfold onMoveTouchResponder.
  destruct (touches (nativeEvent e)) as [|t0 [|t1 [|t2 l]]];
    try apply after_doChildStateChange.
  - destruct (childState c); cbv zeta;
      try apply after_doChildStateChange.
    eapply after_trans;
      [apply after_doChildMove | apply after_doChildStateChange].
  - cbv zeta. destruct (childState c);
      try apply after_doChildStateChange.
    eapply after_trans;
      [apply after_doChildPinchMove | apply after_doChildStateChange].
Qed.

Lemma after_dispatch (ev : HostEvent num) (c : Component num ItemT) :
  after c (dispatch ev c).
Proof.
  destruct ev; cbn [dispatch snd onMoveShouldSetResponder
                    onResponderTerminationRequest
                    onStartShouldSetResponderCapture
                    onMoveShouldSetResponderCapture];
    try apply after_refl.
  - unfold onStartShouldSetResponder. cbv zeta. cbn [snd].
    eapply after_trans; [|apply after_doChildStateChange].
    destruct (_ && _); [apply after_onStartTouchResponder | apply after_refl].
  - unfold onResponderStart. destruct (_ =? _)%nat;
      [apply after_onStartTouchResponder | apply after_onMoveTouchResponder].
  - apply after_onMoveTouchResponder.
  - unfold onResponderRelease. cbv zeta.
    destruct (_ && _).
    + eapply after_trans;
        [apply after_doChildStateChange | apply after_doChildReset].
    + apply after_doChildStateChange.
  - apply after_doChildStateChange.
  - apply after_doChildStateChange.
  - destruct (nth_error _ k); [apply after_animationEnd | apply after_refl].
Qed.

Lemma after_run (evs : list (HostEvent num)) (c : Component num ItemT) :
  after c (run evs c).
Proof.
  revert c. induction evs as [|ev evs IH]; intros c; cbn.
  - apply after_refl.
  - eapply after_trans; [apply after_dispatch | apply IH].
Qed.

(** X1.  Whatever the host delivers, in whatever order, an animation is
    running only while zoom is in progress, if this was so at the start (as
    it is after the constructor). *)
Theorem run_flags_ok (evs : list (HostEvent num)) (c : Component num ItemT) :
  flags_ok c = true -> flags_ok (run evs c) = true.
Proof. exact (proj2 (proj2 (proj2 (proj2 (after_run evs c))))). Qed.

(** X2.  No gesture handler and no animation callback changes the viewport,
    the measured position of the view, or the React state: the page, the data
    and [refreshing]. *)
Theorem run_keeps_state (evs : list (HostEvent num))
    (c : Component num ItemT) :
  viewPort (run evs c) = viewPort c /\
  absolutePosition (run evs c) = absolutePosition c /\
  state (run evs c) = state c.
Proof.
  destruct (after_run evs c) as (V & A & S & _). auto.
Qed.

(** X3.  The log of calls only grows, and the only call a gesture makes on
    the list is [scrollToIndex] to the current page, not animated. *)
Theorem run_scrolls_to_current (evs : list (HostEvent num))
    (c : Component num ItemT) :
  exists l, effects (run evs c) = l ++ effects c /\
    forall index animated, In (ScrollToIndex index animated) l ->
      index = currentIndex (state c) /\ animated = false.
Proof.
  destruct (after_run evs c) as (_ & _ & _ & (l & E & F) & _).
  exists l. split; [exact E|]. intros index animated Hin.
  rewrite Forall_forall in F. exact (F _ Hin).
Qed.

End TraceFacts.

(** The pinch begun while the reset runs, from the constructor. *)
Lemma run_flags_ok_witness : flags_ok (run pinch_during_reset gallery) = true.
Proof.
  apply (@run_flags_ok float _ _ nat pinch_during_reset gallery).
  reflexivity.
Defined.

(** ** What each host event does to the gesture state and the zoom flag *)

Section DispatchFacts.

Variable num : Type.
Context {N : JSNumber num} {M : JSMath num}.
Variable ItemT : Type.
Local Open Scope js_scope.

Lemma lastTouch_set_lastTouch (v : num) (s : ChildState num) :
  lastTouch (set_lastTouch v s) = v.
Proof. destruct s; reflexivity. Qed.

Lemma status_set_lastTouch (v : num) (s : ChildState num) :
  status (set_lastTouch v s) = status s.
Proof. destruct s; reflexivity. Qed.

Lemma doChildDoubleTouch_childState (p : Position num) (t : num)
    (c : Component num ItemT) :
  childState (doChildDoubleTouch p t c) = childState c.
Proof.
  unfold doChildDoubleTouch. destruct (negb (childDoingZoom c)).
  - rewrite doChildAnimation_childState. reflexivity.
  - apply doChildReset_childState.
Qed.

Lemma doChildMove_childState (p n : Position num) (t : num)
    (c : Component num ItemT) :
  childState (doChildMove p n t c) = childState c.
Proof.
  unfold doChildMove. destruct (_ && _); [|reflexivity].
  rewrite doChildAnimation_childState. reflexivity.
Qed.

Lemma doChildPinchMove_childState (p n : PinchInfo num) (t : num)
    (c : Component num ItemT) :
  childState (doChildPinchMove p n t c) = childState c.
Proof.
  unfold doChildPinchMove. rewrite doChildAnimation_childState. reflexivity.
Qed.

Lemma onStartTouchResponder_lastTouch (e : GestureResponderEvent num)
    (c : Component num ItemT) :
  lastTouch (childState (onStartTouchResponder e c))
  = if timeStamp e - lastTouch (childState c) <? DOUBLE_TOUCH_THRES
    then lit_0 else timeStamp e.
Proof.
  unfold onStartTouchResponder.
  destruct (_ <? DOUBLE_TOUCH_THRES).
  - cbv zeta. destruct (negb _).
    + rewrite doChildDoubleTouch_childState. apply lastTouch_set_lastTouch.
    + apply lastTouch_set_lastTouch.
  - cbv zeta. rewrite doChildStateChange_childState.
    cbn [lastTouch childState set_childState].
    apply lastTouch_set_lastTouch.
Qed.

Lemma onMoveTouchResponder_lastTouch (e : GestureResponderEvent num)
    (c : Component num ItemT) :
  lastTouch (childState (onMoveTouchResponder e c)) = lastTouch (childState c).
Proof.
  unfold onMoveTouchResponder.
  destruct (touches (nativeEvent e)) as [|t0 [|t1 [|t2 l]]]; cbv zeta;
    try reflexivity.
  - destruct (childState c) as [i l ts lt|i l ts lt|lt] eqn:E;
      rewrite doChildStateChange_childState; cbn [lastTouch];
      rewrite ?doChildMove_childState, ?E; reflexivity.
  - destruct (childState c) as [i l ts lt|i l ts lt|lt] eqn:E;
      rewrite doChildStateChange_childState; cbn [lastTouch];
      rewrite ?doChildPinchMove_childState, ?E; reflexivity.
Qed.

(** X4.  [lastTouch] is written by a touch-down and by nothing else: a
    touch-down within [DOUBLE_TOUCH_THRES] of the recorded one sets it to
    [0], a later one records its own time; moves, releases, the negotiation
    predicates and the animation callbacks keep it. *)
Theorem dispatch_lastTouch (ev : HostEvent num) (c : Component num ItemT) :
  lastTouch (childState (dispatch ev c))
  = match touchDown ev c with
    | Some e =>
        if timeStamp e - lastTouch (childState c) <? DOUBLE_TOUCH_THRES
        then lit_0 else timeStamp e
    | None => lastTouch (childState c)
    end.
Proof.
  destruct ev; cbn [dispatch touchDown snd onMoveShouldSetResponder
                    onResponderTerminationRequest
                    onStartShouldSetResponderCapture
                    onMoveShouldSetResponderCapture]; try reflexivity.
  - unfold onStartShouldSetResponder. cbv zeta. cbn [snd].
    rewrite doChildStateChange_childState. cbn [spread_OTHER lastTouch].
    destruct (_ && _); [apply onStartTouchResponder_lastTouch | reflexivity].
  - unfold onResponderStart. destruct (_ =? _)%nat.
    + apply onStartTouchResponder_lastTouch.
    + apply onMoveTouchResponder_lastTouch.
  - apply onMoveTouchResponder_lastTouch.
  - unfold onResponderRelease. cbv zeta. destruct (_ && _).
    + rewrite doChildReset_childState. reflexivity.
    + reflexivity.
  - destruct (nth_error _ k) as [[]|]; reflexivity.
Qed.

Lemma doChildAnimation_zoom (t : num) (cb : Callback) (o : bool)
    (c : Component num ItemT) :
  childDoingZoom c = true -> childDoingZoom (doChildAnimation t cb o c) = true.
Proof.
  intros H. unfold doChildAnimation.
  destruct (_ && _); [exact H|]. reflexivity.
Qed.

Lemma doChildStateChange_zoom (to : ChildState num) (c : Component num ItemT) :
  childDoingZoom c = true -> childDoingZoom (doChildStateChange to c) = true.
Proof.
  intros H. unfold doChildStateChange.
  destruct (negb (ChildStatus_eqb (status (childState c)) (status to)));
    [ destruct (negb (ChildStatus_eqb (status to) SINGLE));
      destruct (ChildStatus_eqb (status to) DOUBLE) | ]; cbn; auto.
Qed.

Lemma doChildAnimation_override_zoom (t : num) (cb : Callback)
    (c : Component num ItemT) :
  childDoingZoom (doChildAnimation t cb true c) = true.
Proof.
  unfold doChildAnimation. rewrite andb_false_r. reflexivity.
Qed.

Lemma doChildDoubleTouch_zoom (p : Position num) (t : num)
    (c : Component num ItemT) :
  childDoingZoom (doChildDoubleTouch p t c) = true.
Proof.
  unfold doChildDoubleTouch, doChildReset.
  destruct (negb _); apply doChildAnimation_override_zoom.
Qed.

Lemma onStartTouchResponder_zoom (e : GestureResponderEvent num)
    (c : Component num ItemT) :
  childDoingZoom c = true -> childDoingZoom (onStartTouchResponder e c) = true.
Proof.
  intros H. unfold onStartTouchResponder.
  destruct (_ <? DOUBLE_TOUCH_THRES); cbv zeta.
  - destruct (negb _); [apply doChildDoubleTouch_zoom | exact H].
  - apply doChildStateChange_zoom. exact H.
Qed.

Lemma onMoveTouchResponder_zoom (e : GestureResponderEvent num)
    (c : Component num ItemT) :
  childDoingZoom c = true -> childDoingZoom (onMoveTouchResponder e c) = true.
Proof.
  intros H. unfold onMoveTouchResponder.
  destruct (touches (nativeEvent e)) as [|t0 [|t1 [|t2 l]]]; cbv zeta;
    try (apply doChildStateChange_zoom; exact H).
  - destruct (childState c); apply doChildStateChange_zoom; try exact H.
    unfold doChildMove. destruct (_ && _); [|exact H].
    apply doChildAnimation_zoom. exact H.
  - destruct (childState c); apply doChildStateChange_zoom; try exact H.
    unfold doChildPinchMove. apply doChildAnimation_zoom. exact H.
Qed.

(** X5.  Once zoom is in progress it stays in progress, whatever touches
    arrive, until the callback of a reset ([doChildReset] is the one caller
    that passes the closure clearing the flag) is invoked. *)
Theorem dispatch_zoom_cleared (ev : HostEvent num) (c : Component num ItemT) :
  childDoingZoom c = true -> childDoingZoom (dispatch ev c) = false ->
  match ev with
  | AnimationEnd k => nth_error (started (effects c)) k = Some cb_clearZoom
  | _ => False
  end.
Proof.
  intros H H'.
  assert (K : forall c' : Component num ItemT,
             childDoingZoom c' = true -> dispatch ev c = c' -> False)
    by (intros c' Hc' E; rewrite E, Hc' in H'; discriminate).
  destruct ev as [e|e|e|e|e|e|e| | | |k].
  11: { cbn [dispatch] in H'.
        destruct (nth_error _ k) as [[]|]; cbn in H'; congruence. }
  all: eapply K; [|reflexivity];
    cbn [dispatch snd onMoveShouldSetResponder
         onResponderTerminationRequest
         onStartShouldSetResponderCapture
         onMoveShouldSetResponderCapture]; try exact H.
  - unfold onStartShouldSetResponder. cbv zeta. cbn [snd].
    apply doChildStateChange_zoom.
    destruct (_ && _); [apply onStartTouchResponder_zoom|]; exact H.
  - unfold onResponderStart. destruct (_ =? _)%nat;
      [apply onStartTouchResponder_zoom | apply onMoveTouchResponder_zoom];
      exact H.
  - apply onMoveTouchResponder_zoom, H.
  - unfold onResponderRelease. cbv zeta. destruct (_ && _).
    + unfold doChildReset. apply doChildAnimation_override_zoom.
    + apply doChildStateChange_zoom, H.
  - apply doChildStateChange_zoom, H.
  - apply doChildStateChange_zoom, H.
Qed.

(** The number of touches of a move decides the gesture state it leaves:
    SINGLE for one, DOUBLE for two, OTHER for none or for three and more. *)
Lemma onMoveTouchResponder_status (e : GestureResponderEvent num)
    (c : Component num ItemT) :
  status (childState (onMoveTouchResponder e c))
  = match length (touches (nativeEvent e)) with
    | 1%nat => SINGLE
    | 2%nat => DOUBLE
    | _ => OTHER
    end.
Proof.
  unfold onMoveTouchResponder.
  destruct (touches (nativeEvent e)) as [|t0 [|t1 [|t2 l]]]; cbv zeta;
    try reflexivity; destruct (childState c); reflexivity.
Qed.

(** X6.  A move that changes the kind of the gesture (the first move with one
    finger, the first with two, one with another number of fingers) is not
    forwarded to the transform engine: the target and the animation flag
    stay. When the new kind is DOUBLE, zoom is in progress from then on and
    the list is scrolled, without animation, to the current page; no other
    call is made. *)
Theorem onMoveTouchResponder_first (e : GestureResponderEvent num)
    (c : Component num ItemT) :
  status (childState (onMoveTouchResponder e c)) <> status (childState c) ->
  let c' := onMoveTouchResponder e c in
  let pinch := ChildStatus_eqb (status (childState c')) DOUBLE in
  scaleTarget c' = scaleTarget c /\
  transformBase c' = transformBase c /\
  doingChildAnimation c' = doingChildAnimation c /\
  childDoingZoom c' = pinch || childDoingZoom c /\
  effects c'
  = (if pinch then [ScrollToIndex (currentIndex (state c)) false] else [])
    ++ effects c.
Proof.
  intros Hs c' pinch. revert Hs. unfold pinch, c'. clear pinch c'.
  assert (K : forall to : ChildState num,
             status to <> status (childState c) ->
             let d := doChildStateChange to c in
             scaleTarget d = scaleTarget c /\
             transformBase d = transformBase c /\
             doingChildAnimation d = doingChildAnimation c /\
             childDoingZoom d
             = ChildStatus_eqb (status (childState d)) DOUBLE
               || childDoingZoom c /\
             effects d
             = (if ChildStatus_eqb (status (childState d)) DOUBLE
                then [ScrollToIndex (currentIndex (state c)) false] else [])
               ++ effects c).
  { intros to Hto d. unfold d. rewrite doChildStateChange_childState.
    unfold doChildStateChange.
    destruct (status (childState c)), (status to); try (now elim Hto);
      repeat split. }
  unfold onMoveTouchResponder.
  destruct (touches (nativeEvent e)) as [|t0 [|t1 [|t2 l]]]; cbv zeta;
    intros Hs; try (apply K; exact Hs).
  - destruct (childState c) as [i l ts lt|i l ts lt|lt] eqn:E;
      try (rewrite <- E in *; apply K; exact Hs).
    exfalso. apply Hs. reflexivity.
  - destruct (childState c) as [i l ts lt|i l ts lt|lt] eqn:E;
      try (rewrite <- E in *; apply K; exact Hs).
    exfalso. apply Hs. reflexivity.
Qed.

End DispatchFacts.

(** After the pinch to 1.2 and the release, the reset is animation 1: its
    completion is what clears the flag. *)
Lemma dispatch_zoom_cleared_witness :
  let c := run (pinch_to_1_2 ++ [ResponderRelease]) gallery in
  nth_error (started (effects c)) 1 = Some cb_clearZoom.
Proof.
  intros c.
  apply (@dispatch_zoom_cleared float _ _ nat (AnimationEnd 1) c);
    vm_compute; reflexivity.
Defined.

(** Two fingers land on the gallery: the first event with two touches. *)
Lemma onMoveTouchResponder_first_witness :
  let c' := onMoveTouchResponder (pinch 1010 100 200) gallery in
  scaleTarget c' = 1 /\
  transformBase c' = {| x := 0; y := 0 |} /\
  doingChildAnimation c' = false /\
  childDoingZoom c' = true /\
  effects c' = [ScrollToIndex 0 false].
Proof.
  intros c'.
  apply (@onMoveTouchResponder_first float _ _ nat (pinch 1010 100 200)
           gallery).
  vm_compute. discriminate.
Defined.

(** ** The transform engine in exact arithmetic *)

(** Case analysis on every [Qmin] and [Qmax] of the goal, innermost first. *)
Ltac q_plain t :=
  lazymatch t with
  | context [Qmin _ _] => fail
  | context [Qmax _ _] => fail
  | _ => idtac
  end.

Ltac q_minmax :=
  repeat match goal with
         | |- context [Qmin ?a ?b] =>
             q_plain a; q_plain b;
             let H := fresh in let E := fresh in
             destruct (Q.min_spec a b) as [[H E] | [H E]]; rewrite E; clear E
         | |- context [Qmax ?a ?b] =>
             q_plain a; q_plain b;
             let H := fresh in let E := fresh in
             destruct (Q.max_spec a b) as [[H E] | [H E]]; rewrite E; clear E
         end;
  try lra.

Section ExactEngine.

Variable ItemT : Type.
Local Open Scope Q_scope.

(** Clamping twice to the same bound is clamping once. *)
Lemma Q_clamp_idempotent (v m m' : Q) :
  m' == m ->
  Qmax (Qmin (Qmax (Qmin v m) (- m)) m') (- m') == Qmax (Qmin v m) (- m).
Proof. intros E. q_minmax. Qed.

Lemma Q_zoom_idempotent (s : Q) :
  Qmax (Qmin (Qmax (Qmin s 5) (1 # 2)) 5) (1 # 2) == Qmax (Qmin s 5) (1 # 2).
Proof. q_minmax. Qed.

(** X7.  Applying the bounds again does not move the target: the clamp of
    [doChildAnimation] is idempotent. *)
Theorem doChildAnimation_idempotent (c : Component Q ItemT) (t1 t2 : Q)
    (cb1 cb2 : Callback) (o : bool) :
  doingChildAnimation c = false \/ o = true ->
  let c1 := doChildAnimation t1 cb1 o c in
  let c2 := doChildAnimation t2 cb2 true c1 in
  scaleTarget c2 == scaleTarget c1 /\
  Position_eq (transformBase c2) (transformBase c1).
Proof.
  intros H c1 c2.
  destruct (@doChildAnimation_target Q _ ItemT t1 cb1 o c H)
    as (S1 & X1 & Y1 & _).
  destruct (@doChildAnimation_target Q _ ItemT t2 cb2 true c1
              (or_intror eq_refl)) as (S2 & X2 & Y2 & _).
  fold c1 in S1, X1, Y1. fold c2 in S2, X2, Y2.
  assert (V : viewPort c1 = viewPort c).
  { unfold c1, doChildAnimation.
    destruct (_ && _); [reflexivity|]. destruct o; reflexivity. }
  cbn [Math_max Math_min Math_abs nsub nmul ndiv nneg lit_1 lit_2
       Exact.number] in *.
  unfold MAX_ZOOM, MIN_ZOOM in *. cbn [lit_5 lit_0_5 Exact.number] in *.
  assert (ES : scaleTarget c2 == scaleTarget c1).
  { rewrite S2, S1. apply Q_zoom_idempotent. }
  split; [exact ES|]. rewrite <- S1, <- S2 in *.
  split.
  - rewrite X2, V, Qmult_1_r, X1.
    apply Q_clamp_idempotent. now rewrite ES.
  - rewrite Y2, V, Qmult_1_r, Y1.
    apply Q_clamp_idempotent. now rewrite ES.
Qed.

Lemma doChildPinchMove_running (c : Component Q ItemT) (p n : PinchInfo Q)
    (t : Q) :
  doingChildAnimation c = true ->
  doChildPinchMove p n t c
  = doChangeScale {| x := x (center n) - x (center p);
                     y := y (center n) - y (center p) |}
      (pinchScale p n) (Some (getCenterDisposition (center p) c)) c.
Proof.
  intros Ha. unfold doChildPinchMove. cbv zeta.
  apply doChildAnimation_skipped. exact Ha.
Qed.

(** X8.  Pinch frames compose. While an animation runs, [doChildPinchMove]
    only accumulates into the target (the bounds are applied by the next call
    of [doChildAnimation] that is not skipped); two frames [p0 -> p1 -> p2]
    leave the target that the single frame [p0 -> p2] leaves: within the
    bounds, the zoom follows the fingers, not the sampling of their path. *)
Theorem doChildPinchMove_path (c : Component Q ItemT) (p0 p1 p2 : PinchInfo Q)
    (t1 t2 t : Q) :
  doingChildAnimation c = true ->
  ~ distance p0 == 0 -> ~ distance p1 == 0 ->
  let c2 := doChildPinchMove p1 p2 t2 (doChildPinchMove p0 p1 t1 c) in
  let c' := doChildPinchMove p0 p2 t c in
  scaleTarget c2 == scaleTarget c' /\
  Position_eq (transformBase c2) (transformBase c') /\
  effects c2 = effects c /\ effects c' = effects c.
Proof.
  intros Ha H0 H1 c2 c'. unfold c2, c'.
  rewrite (doChildPinchMove_running c p0 p1 t1 Ha).
  rewrite (doChildPinchMove_running c p0 p2 t Ha).
  rewrite doChildPinchMove_running by exact Ha.
  unfold Position_eq, pinchScale, getCenterDisposition, centerPosition.
  cbn. repeat split; field; auto.
Qed.

(** The rationals have no square root; the next property holds whatever
    [Math.sqrt] and [Math.pow] return. *)
Context {M : JSMath Q}.


End ExactEngine.

Section ExactEngineWitnesses.

Local Open Scope Q_scope.

(** A target of scale 7, out of the range, clamped twice. *)
Lemma doChildAnimation_idempotent_witness :
  let c := set_scaleTarget 7 (construct (num := Q) 300 300 (@nil nat) 0%Z) in
  let c1 := doChildAnimation 16 cb_noop false c in
  let c2 := doChildAnimation 16 cb_noop true c1 in
  scaleTarget c2 == scaleTarget c1 /\
  Position_eq (transformBase c2) (transformBase c1).
Proof.
  intros c c1 c2.
  apply (@doChildAnimation_idempotent nat c 16 16 cb_noop cb_noop false).
  left. reflexivity.
Defined.

(** A pinch opening from 100 to 150 and then to 300 while an animation
    runs, against the pinch from 100 to 300. *)
Lemma doChildPinchMove_path_witness :
  let c := set_doingChildAnimation true
             (construct (num := Q) 300 300 (@nil nat) 0%Z) in
  let p0 := {| center := {| x := 150; y := 150 |}; distance := 100 |} in
  let p1 := {| center := {| x := 160; y := 150 |}; distance := 150 |} in
  let p2 := {| center := {| x := 170; y := 140 |}; distance := 300 |} in
  let c2 := doChildPinchMove p1 p2 16 (doChildPinchMove p0 p1 16 c) in
  let c' := doChildPinchMove p0 p2 32 c in
  scaleTarget c2 == scaleTarget c' /\
  Position_eq (transformBase c2) (transformBase c') /\
  effects c2 = effects c /\ effects c' = effects c.
Proof.
  intros c p0 p1 p2 c2 c'.
  apply (@doChildPinchMove_path nat c p0 p1 p2 16 16 32).
  - reflexivity.
  - discriminate.
  - discriminate.
Defined.


End ExactEngineWitnesses.

(** ** The reset on binary64 *)

Module F64Reset.

Local Open Scope float_scope.

(** A finite dimension times [|1 - 1|], halved, is a zero. *)
Lemma bound_at_identity (w : float) :
  (abs w <? infinity) = true ->
  (w * abs (1 - 1)) / 2 = 0 \/ (w * abs (1 - 1)) / 2 = (-0).
Proof.
  intros Hw.
  assert (Hz : Prim2SF ((w * abs (1 - 1)) / 2) = S754_zero false \/
               Prim2SF ((w * abs (1 - 1)) / 2) = S754_zero true).
  { rewrite FloatAxioms.div_spec, FloatAxioms.mul_spec.
    change (Prim2SF (abs (1 - 1))) with (S754_zero false).
    change (Prim2SF 2) with (S754_finite false 4503599627370496 (-51)).
    revert Hw. rewrite FloatAxioms.ltb_spec, FloatAxioms.abs_spec.
    unfold SFltb.
    change (Prim2SF infinity) with (S754_infinity false).
    destruct (Prim2SF w) as [s|s| |s m e]; cbn; try discriminate;
      intros _; destruct s; auto. }
  destruct Hz as [Hz | Hz]; [left | right]; apply Prim2SF_inj; rewrite Hz;
    reflexivity.
Qed.

End F64Reset.

Section Reset.

Variable ItemT : Type.
Local Open Scope float_scope.

(** X10.  [doChildReset] on a view of finite dimensions: whatever the target
    was, it becomes the identity, scale [1] and translation [{0, 0}] exactly;
    the running animations are stopped and one animation to the identity is
    started; when its callback is invoked, no animation is running and zoom
    is no longer in progress. *)
Theorem doChildReset_identity (c : Component float ItemT) (timing : float) :
  (abs (width (viewPort c)) <? infinity) = true ->
  (abs (height (viewPort c)) <? infinity) = true ->
  let c' := doChildReset timing c in
  scaleTarget c' = 1 /\
  transformBase c' = {| x := 0; y := 0 |} /\
  effects c' = StartAnimation timing 1 {| x := 0; y := 0 |} cb_clearZoom
                 :: StopTransformAnimation :: StopScaleAnimation :: effects c /\
  doingChildAnimation c' = true /\ childDoingZoom c' = true /\
  doingChildAnimation (animationEnd cb_clearZoom c') = false /\
  childDoingZoom (animationEnd cb_clearZoom c') = false.
Proof.
  intros Hw Hh c'. unfold c', doChildReset, doChildAnimation.
  cbn -[PrimFloat.mul PrimFloat.div PrimFloat.abs PrimFloat.sub F64.max F64.min
        PrimFloat.opp].
  rewrite andb_false_r.
  cbn -[PrimFloat.mul PrimFloat.div PrimFloat.abs PrimFloat.sub F64.max F64.min
        PrimFloat.opp].
  change (F64.max (F64.min 1 5) 0.5) with 1.
  destruct (F64Reset.bound_at_identity Hw) as [-> | ->];
    destruct (F64Reset.bound_at_identity Hh) as [-> | ->];
    vm_compute; repeat split.
Qed.

End Reset.

(** The reset after the pinch to 1.2. *)
Lemma doChildReset_identity_witness :
  let c := run pinch_to_1_2 gallery in
  let c' := doChildReset 300 c in
  scaleTarget c' = 1 /\
  transformBase c' = {| x := 0; y := 0 |} /\
  effects c' = StartAnimation 300 1 {| x := 0; y := 0 |} cb_clearZoom
                 :: StopTransformAnimation :: StopScaleAnimation :: effects c /\
  doingChildAnimation c' = true /\ childDoingZoom c' = true /\
  doingChildAnimation (animationEnd cb_clearZoom c') = false /\
  childDoingZoom (animationEnd cb_clearZoom c') = false.
Proof.
  intros c c'.
  apply (@doChildReset_identity nat c 300); reflexivity.
Defined.

(** ** The targets of the animations on binary64 *)

Module F64Clamp.

Local Open Scope float_scope.

Lemma max_nan_l (a b : float) :
  PrimFloat.is_nan a = true -> PrimFloat.is_nan (F64.max a b) = true.
Proof. intros H. unfold F64.max. rewrite H. reflexivity. Qed.

Lemma min_nan_l (a b : float) :
  PrimFloat.is_nan a = true -> PrimFloat.is_nan (F64.min a b) = true.
Proof. intros H. unfold F64.min. rewrite H. reflexivity. Qed.

Lemma min_nan_r (a b : float) :
  PrimFloat.is_nan b = true -> PrimFloat.is_nan (F64.min a b) = true.
Proof. intros H. unfold F64.min. rewrite H, orb_true_r. reflexivity. Qed.

(** The clamp of the scale gives NaN or a scale of the range. *)
Lemma zoom_clamp (s : float) :
  let r := F64.max (F64.min s 5) 0.5 in
  PrimFloat.is_nan r = true \/ ((0.5 <=? r) = true /\ (r <=? 5) = true).
Proof.
  intros r. destruct (PrimFloat.is_nan s) eqn:Hs.
  - left. apply max_nan_l, min_nan_l, Hs.
  - right. apply (F64Facts.clamp_bounds s Hs). reflexivity.
Qed.

(** The bound of a scale that is NaN is NaN. *)
Lemma bound_nan (w s : float) :
  PrimFloat.is_nan s = true -> PrimFloat.is_nan (w * abs (1 - s) / 2) = true.
Proof.
  rewrite !F64Facts.is_nan_spec.
  rewrite FloatAxioms.div_spec, FloatAxioms.mul_spec, FloatAxioms.abs_spec,
    FloatAxioms.sub_spec.
  destruct (Prim2SF s); try discriminate. intros _.
  change (Prim2SF 1) with (S754_finite false 4503599627370496 (-52)).
  change (Prim2SF 2) with (S754_finite false 4503599627370496 (-51)).
  destruct (Prim2SF w); reflexivity.
Qed.

(** The clamp of a translation gives NaN or a translation inside the bound
    of the scale, for a positive finite dimension. *)
Lemma translation_clamp (w s t : float) :
  (0 <? w) = true -> (w <? infinity) = true ->
  PrimFloat.is_nan s = true \/ ((0.5 <=? s) = true /\ (s <=? 5) = true) ->
  let m := w * abs (1 - s) / 2 in
  let r := F64.max (F64.min t m) (- m) in
  PrimFloat.is_nan r = true \/ (abs r <=? m) = true.
Proof.
  intros Hw0 Hw1 [Hs | [Hs0 Hs1]] m r.
  - left. apply max_nan_l, min_nan_r, bound_nan, Hs.
  - destruct (PrimFloat.is_nan t) eqn:Ht.
    + left. apply max_nan_l, min_nan_l, Ht.
    + right.
      assert (Hm : (0 <=? m) = true)
        by (apply F64Bound.bound_nonneg; assumption).
      destruct (F64Facts.clamp_bounds t Ht (F64Facts.opp_leb Hm)) as [H1 H2].
      apply F64Facts.abs_leb; assumption.
Qed.

End F64Clamp.

Section AnimationTargets.

Variable ItemT : Type.
Local Open Scope float_scope.

Lemma gesture_effect_in_bounds (v : ViewPort float) (i : Z)
    (e : Effect float) :
  (0 <? width v) = true -> (width v <? infinity) = true ->
  (0 <? height v) = true -> (height v <? infinity) = true ->
  gesture_effect v i e -> in_bounds v e = true.
Proof.
  intros Hw0 Hw1 Hh0 Hh1. destruct e as [| | |d s p cb]; try reflexivity.
  cbn [gesture_effect in_bounds]. cbv zeta.
  intros ((s0 & Es) & (tx & Ex) & (ty & Ey) & _).
  cbn [Math_max Math_min Math_abs nsub nmul ndiv nneg lit_1 lit_2
       F64.number] in Es, Ex, Ey.
  assert (Hs : PrimFloat.is_nan s = true \/
               ((0.5 <=? s) = true /\ (s <=? 5) = true))
    by (rewrite Es; apply F64Clamp.zoom_clamp).
  assert (Hx : PrimFloat.is_nan (x p) = true \/
               (abs (x p) <=? width v * abs (1 - s) / 2) = true)
    by (rewrite Ex; apply F64Clamp.translation_clamp; assumption).
  assert (Hy : PrimFloat.is_nan (y p) = true \/
               (abs (y p) <=? height v * abs (1 - s) / 2) = true)
    by (rewrite Ey; apply F64Clamp.translation_clamp; assumption).
  destruct Hs as [-> | [-> ->]]; destruct Hx as [-> | ->];
    destruct Hy as [-> | ->]; rewrite ?orb_true_r; reflexivity.
Qed.

(** X11.  Every animation started aims inside the bounds. In a viewport of
    positive finite dimensions, along every sequence of host events, whatever
    the touches, each animation the engine starts has a target scale in
    [[0.5, 5]] and a target translation of magnitude at most
    [(dimension * |1 - scale|) / 2], or NaN in their place: the target may
    leave the bounds between two animations, no animation is started towards
    a point outside them. *)
Theorem run_animations_in_bounds (evs : list (HostEvent float))
    (c : Component float ItemT) :
  (0 <? width (viewPort c)) = true ->
  (width (viewPort c) <? infinity) = true ->
  (0 <? height (viewPort c)) = true ->
  (height (viewPort c) <? infinity) = true ->
  exists l, effects (run evs c) = l ++ effects c /\
            forallb (in_bounds (viewPort c)) l = true.
Proof.
  intros Hw0 Hw1 Hh0 Hh1.
  destruct (after_run evs c) as (_ & _ & _ & (l & E & F) & _).
  exists l. split; [exact E|].
  apply forallb_forall. intros e He. rewrite Forall_forall in F.
  apply gesture_effect_in_bounds with (i := currentIndex (state c));
    auto.
Qed.

Lemma gesture_effect_reset (v : ViewPort float) (i : Z) (d s : float)
    (p : Position float) :
  (abs (width v) <? infinity) = true -> (abs (height v) <? infinity) = true ->
  gesture_effect v i (StartAnimation d s p cb_clearZoom) ->
  s = 1 /\ p = {| x := 0; y := 0 |}.
Proof.
  intros Hw Hh. cbn [gesture_effect]. cbv zeta.
  intros (_ & _ & _ & H). destruct (H eq_refl) as (Es & Ex & Ey). clear H.
  cbn [Math_max Math_min Math_abs nsub nmul ndiv nneg lit_0 lit_1 lit_2
       F64.number] in Es, Ex, Ey.
  change (F64.max (F64.min 1 MAX_ZOOM) MIN_ZOOM) with 1 in Es. subst s.
  split; [reflexivity|]. destruct p as [px py]. cbn [x y] in Ex, Ey.
  subst px py.
  destruct (F64Reset.bound_at_identity Hw) as [-> | ->];
    destruct (F64Reset.bound_at_identity Hh) as [-> | ->];
    vm_compute; reflexivity.
Qed.

(** X12.  Zoom ends at the identity. In a viewport of finite dimensions,
    along every sequence of host events, every animation started with the
    closure that clears [childDoingZoom] has the identity as its target:
    scale [1] and translation [{0, 0}] exactly. *)
Theorem run_resets_to_identity (evs : list (HostEvent float))
    (c : Component float ItemT) :
  (abs (width (viewPort c)) <? infinity) = true ->
  (abs (height (viewPort c)) <? infinity) = true ->
  exists l, effects (run evs c) = l ++ effects c /\
    forall d s p, In (StartAnimation d s p cb_clearZoom) l ->
      s = 1 /\ p = {| x := 0; y := 0 |}.
Proof.
  intros Hw Hh.
  destruct (after_run evs c) as (_ & _ & _ & (l & E & F) & _).
  exists l. split; [exact E|].
  intros d s p Hin. rewrite Forall_forall in F.
  exact (gesture_effect_reset Hw Hh (F _ Hin)).
Qed.

End AnimationTargets.

(** The pinch begun while the reset runs: the target scale goes to 3 without
    a clamp, and the animations started are the move to 1.2 and the reset. *)
Lemma run_animations_in_bounds_witness :
  exists l, effects (run pinch_during_reset gallery) = l ++ effects gallery /\
            forallb (in_bounds (viewPort gallery)) l = true.
Proof.
  apply (@run_animations_in_bounds nat pinch_during_reset gallery);
    reflexivity.
Defined.

(** The double tap, the third tap, and the double tap that resets. *)
Lemma run_resets_to_identity_witness :
  exists l, effects (run zoom_then_reset gallery) = l ++ effects gallery /\
    forall d s p, In (StartAnimation d s p cb_clearZoom) l ->
      s = 1 /\ p = {| x := 0; y := 0 |}.
Proof.
  apply (@run_resets_to_identity nat zoom_then_reset gallery); reflexivity.
Defined.

(** ** The sign of the scale on binary64 *)

Module F64Sign.

Local Open Scope float_scope.

Lemma signed_not_negative (X : spec_float) :
  SF.signed false X -> SF_not_negative X = true.
Proof. destruct X; cbn; intros H; try contradiction; now subst. Qed.

(** The cases of a description that is not negative. *)
Lemma not_negative_cases (X : spec_float) :
  SF_not_negative X = true ->
  X = S754_nan \/ X = S754_zero false \/ X = S754_infinity false \/
  exists m e, X = S754_finite false m e.
Proof.
  destruct X as [s|s| |s m e]; cbn; auto; destruct s; try discriminate;
    eauto 6.
Qed.

Ltac sf_cases H :=
  apply not_negative_cases in H;
  destruct H as [-> | [-> | [-> | (? & ? & ->)]]].

Lemma SFmul_not_negative (X Y : spec_float) :
  SF_not_negative X = true -> SF_not_negative Y = true ->
  SF_not_negative (SF64mul X Y) = true.
Proof.
  intros HX HY. sf_cases HX; sf_cases HY; try reflexivity.
  apply signed_not_negative, SFSign.binary_round_aux_signed. lia.
Qed.

Lemma SFmul_square (X : spec_float) : SF_not_negative (SF64mul X X) = true.
Proof.
  destruct X as [s|s| |s m e];
    [now destruct s | now destruct s | reflexivity |].
  apply signed_not_negative. cbn [SF64mul SFmul].
  generalize (@SFSign.binary_round_aux_signed (xorb s s)
                (Z.pos (m * m)) (e + e)%Z loc_Exact).
  rewrite xorb_nilpotent. intros H. apply H. lia.
Qed.

Lemma SFdiv_not_negative (X Y : spec_float) :
  SF_not_negative X = true -> SF_not_negative Y = true ->
  SF_not_negative (SF64div X Y) = true.
Proof.
  intros HX HY. sf_cases HX; sf_cases HY; try reflexivity.
  apply signed_not_negative.
  match goal with
  | |- SF.signed false (SF64div ?P (S754_finite false ?n ?f)) =>
      exact (SFSign.SFdiv_signed P n f eq_refl)
  end.
Qed.

Lemma SFadd_not_negative (X Y : spec_float) :
  SF_not_negative X = true -> SF_not_negative Y = true ->
  SF_not_negative (SF64add X Y) = true.
Proof.
  intros HX HY. sf_cases HX; sf_cases HY; try reflexivity.
  apply signed_not_negative.
  unfold SF64add, SFadd, binary_normalize. cbn [cond_Zopp].
  match goal with
  | |- context [shl_align ?m ?e ?z] =>
      destruct (shl_align m e z) as [m1 e1]
  end.
  match goal with
  | |- context [shl_align ?m ?e ?z] =>
      destruct (shl_align m e z) as [m2 e2]
  end.
  cbn [fst]. apply SFSign.binary_round_signed.
Qed.

Lemma SFsqrt_not_negative (X : spec_float) :
  SF_not_negative X = true -> SF_not_negative (SF64sqrt X) = true.
Proof.
  intros HX. sf_cases HX; try reflexivity.
  apply signed_not_negative. unfold SF64sqrt, SFsqrt.
  match goal with
  | |- context [SFsqrt_core_binary ?p ?x ?m ?e] =>
      destruct (SFsqrt_core_binary p x m e) as [[mz ez] lz] eqn:E
  end.
  apply SFSign.binary_round_aux_signed.
  unfold SFsqrt_core_binary in E.
  set (m' := match _ with Z.pos _ => _ | Z0 => _ | Z.neg _ => _ end) in E.
  assert (Hm : (0 <= m')%Z).
  { unfold m'. destruct (_ - _)%Z; try lia. apply Z.shiftl_nonneg. lia. }
  generalize (Z.sqrtrem_spec m' Hm).
  destruct (Z.sqrtrem m') as [q r]. inversion E; subst mz. lia.
Qed.

Lemma mul_not_negative (a b : float) :
  not_negative a = true -> not_negative b = true ->
  not_negative (a * b) = true.
Proof.
  unfold not_negative. rewrite FloatAxioms.mul_spec. apply SFmul_not_negative.
Qed.

Lemma div_not_negative (a b : float) :
  not_negative a = true -> not_negative b = true ->
  not_negative (a / b) = true.
Proof.
  unfold not_negative. rewrite FloatAxioms.div_spec. apply SFdiv_not_negative.
Qed.

(** [Math.sqrt(a * a + b * b)] is never negative. *)
Lemma hypot_not_negative (a b : float) :
  not_negative (sqrt (a * a + b * b)) = true.
Proof.
  unfold not_negative.
  rewrite FloatAxioms.sqrt_spec, FloatAxioms.add_spec, !FloatAxioms.mul_spec.
  apply SFsqrt_not_negative, SFadd_not_negative; apply SFmul_square.
Qed.

Lemma max_not_negative (a b : float) :
  not_negative a = true -> not_negative b = true ->
  not_negative (F64.max a b) = true.
Proof.
  intros Ha Hb. unfold F64.max.
  destruct (_ || _); [reflexivity|].
  destruct (a <? b); [exact Hb|]. destruct (b <? a); [exact Ha|].
  destruct (get_sign a); assumption.
Qed.

Lemma min_not_negative (a b : float) :
  not_negative a = true -> not_negative b = true ->
  not_negative (F64.min a b) = true.
Proof.
  intros Ha Hb. unfold F64.min.
  destruct (_ || _); [reflexivity|].
  destruct (a <? b); [exact Ha|]. destruct (b <? a); [exact Hb|].
  destruct (get_sign a); assumption.
Qed.

End F64Sign.

Section ScaleSign.

Variable ItemT : Type.
Local Open Scope float_scope.

Lemma scale_ok_intro (c : Component float ItemT) :
  not_negative (scaleTarget c) = true -> pinch_ok (childState c) = true ->
  scale_ok c = true.
Proof. intros H1 H2. unfold scale_ok. now rewrite H1, H2. Qed.

Lemma scale_ok_elim (c : Component float ItemT) :
  scale_ok c = true ->
  not_negative (scaleTarget c) = true /\ pinch_ok (childState c) = true.
Proof. unfold scale_ok. intros H. apply andb_prop in H. exact H. Qed.

Lemma pinch_ok_set_lastTouch (v : float) (s : ChildState float) :
  pinch_ok (set_lastTouch v s) = pinch_ok s.
Proof. destruct s; reflexivity. Qed.

Lemma scale_ok_doChangeScale (d : Position float) (r : float)
    (p : option (Position float)) (c : Component float ItemT) :
  not_negative r = true -> scale_ok c = true ->
  scale_ok (doChangeScale d r p c) = true.
Proof.
  intros Hr H. apply scale_ok_elim in H. destruct H as [H1 H2].
  apply scale_ok_intro; [|exact H2].
  apply F64Sign.mul_not_negative; assumption.
Qed.

Lemma scale_ok_doChildAnimation (t : float) (cb : Callback) (o : bool)
    (c : Component float ItemT) :
  scale_ok c = true -> scale_ok (doChildAnimation t cb o c) = true.
Proof.
  intros H. unfold doChildAnimation.
  destruct (_ && _); [exact H|].
  apply scale_ok_elim in H. destruct H as [H1 H2].
  apply scale_ok_intro.
  - destruct o;
      apply F64Sign.max_not_negative; try reflexivity;
      apply F64Sign.min_not_negative; try reflexivity; exact H1.
  - destruct o; exact H2.
Qed.

Lemma scale_ok_doChildReset (t : float) (c : Component float ItemT) :
  scale_ok c = true -> scale_ok (doChildReset t c) = true.
Proof.
  intros H. unfold doChildReset. apply scale_ok_doChildAnimation.
  apply scale_ok_elim in H. destruct H as [_ H2].
  apply scale_ok_intro; [reflexivity | exact H2].
Qed.

Lemma scale_ok_doChildStateChange (to : ChildState float)
    (c : Component float ItemT) :
  pinch_ok to = true -> scale_ok c = true ->
  scale_ok (doChildStateChange to c) = true.
Proof.
  intros Ht H. apply scale_ok_elim in H. destruct H as [H1 _].
  apply scale_ok_intro; [|exact Ht].
  unfold doChildStateChange.
  destruct (negb (ChildStatus_eqb (status (childState c)) (status to)));
    [ destruct (negb (ChildStatus_eqb (status to) SINGLE));
      destruct (ChildStatus_eqb (status to) DOUBLE) | ]; exact H1.
Qed.

Lemma scale_ok_set_childState (s : ChildState float)
    (c : Component float ItemT) :
  pinch_ok s = true -> scale_ok c = true ->
  scale_ok (set_childState s c) = true.
Proof.
  intros Hs H. apply scale_ok_elim in H. destruct H as [H1 _].
  apply scale_ok_intro; assumption.
Qed.

Lemma scale_ok_doChildDoubleTouch (p : Position float) (t : float)
    (c : Component float ItemT) :
  scale_ok c = true -> scale_ok (doChildDoubleTouch p t c) = true.
Proof.
  intros H. unfold doChildDoubleTouch. destruct (negb _).
  - apply scale_ok_doChildAnimation, scale_ok_doChangeScale;
      [reflexivity | exact H].
  - apply scale_ok_doChildReset, H.
Qed.

Lemma scale_ok_doChildMove (p n : Position float) (t : float)
    (c : Component float ItemT) :
  scale_ok c = true -> scale_ok (doChildMove p n t c) = true.
Proof.
  intros H. unfold doChildMove. destruct (_ && _); [|exact H].
  apply scale_ok_doChildAnimation, scale_ok_doChangeScale;
    [reflexivity | exact H].
Qed.

Lemma scale_ok_doChildPinchMove (p n : PinchInfo float) (t : float)
    (c : Component float ItemT) :
  not_negative (distance p) = true -> not_negative (distance n) = true ->
  scale_ok c = true -> scale_ok (doChildPinchMove p n t c) = true.
Proof.
  intros Hp Hn H. unfold doChildPinchMove.
  apply scale_ok_doChildAnimation, scale_ok_doChangeScale; [|exact H].
  apply F64Sign.div_not_negative; assumption.
Qed.

Lemma scale_ok_onStartTouchResponder (e : GestureResponderEvent float)
    (c : Component float ItemT) :
  scale_ok c = true -> scale_ok (onStartTouchResponder e c) = true.
Proof.
  intros H. destruct (scale_ok_elim _ H) as [_ H2].
  unfold onStartTouchResponder.
  destruct (_ <? DOUBLE_TOUCH_THRES)%js; cbv zeta.
  - destruct (negb _).
    + apply scale_ok_doChildDoubleTouch, scale_ok_set_childState;
        [now rewrite pinch_ok_set_lastTouch | exact H].
    + apply scale_ok_set_childState;
        [now rewrite pinch_ok_set_lastTouch | exact H].
  - apply scale_ok_doChildStateChange; [reflexivity|].
    apply scale_ok_set_childState;
      [now rewrite pinch_ok_set_lastTouch | exact H].
Qed.

Lemma scale_ok_onMoveTouchResponder (e : GestureResponderEvent float)
    (c : Component float ItemT) :
  scale_ok c = true -> scale_ok (onMoveTouchResponder e c) = true.
Proof.
  intros H. destruct (scale_ok_elim _ H) as [_ H2].
  unfold onMoveTouchResponder.
  destruct (touches (nativeEvent e)) as [|t0 [|t1 [|t2 l]]]; cbv zeta;
    try (apply scale_ok_doChildStateChange; [reflexivity | exact H]).
  - destruct (childState c) as [i l ts lt|i l ts lt|lt];
      apply scale_ok_doChildStateChange; try reflexivity; try exact H.
    apply scale_ok_doChildMove, H.
  - destruct (childState c) as [i l ts lt|i l ts lt|lt];
      apply scale_ok_doChildStateChange; try exact H;
      cbn [pinch_ok distance Math_sqrt Math_pow_2 F64.math nadd nsub
           F64.number];
      rewrite ?F64Sign.hypot_not_negative; try reflexivity.
    + cbn [pinch_ok] in H2. apply andb_prop in H2. destruct H2 as [-> _].
      reflexivity.
    + cbn [pinch_ok] in H2. apply andb_prop in H2. destruct H2 as [_ H2].
      apply scale_ok_doChildPinchMove; auto.
      apply F64Sign.hypot_not_negative.
Qed.

Lemma scale_ok_dispatch (ev : HostEvent float) (c : Component float ItemT) :
  scale_ok c = true -> scale_ok (dispatch ev c) = true.
Proof.
  intros H.
  assert (K : forall d : Component float ItemT, scale_ok d = true ->
             scale_ok (doChildStateChange (spread_OTHER (childState d)) d)
             = true)
    by (intros d Hd; apply scale_ok_doChildStateChange;
        [reflexivity | exact Hd]).
  destruct ev; cbn [dispatch snd onMoveShouldSetResponder
                    onResponderTerminationRequest
                    onStartShouldSetResponderCapture
                    onMoveShouldSetResponderCapture]; try exact H.
  - unfold onStartShouldSetResponder. cbv zeta. cbn [snd]. apply K.
    destruct (_ && _); [apply scale_ok_onStartTouchResponder|]; exact H.
  - unfold onResponderStart. destruct (_ =? _)%nat;
      [apply scale_ok_onStartTouchResponder
      | apply scale_ok_onMoveTouchResponder]; exact H.
  - apply scale_ok_onMoveTouchResponder, H.
  - unfold onResponderRelease. cbv zeta. destruct (_ && _).
    + apply scale_ok_doChildReset, K, H.
    + apply K, H.
  - apply K, H.
  - apply K, H.
  - destruct (nth_error _ k) as [[]|]; exact H.
Qed.

(** X13.  The image is never mirrored. Along every sequence of host events,
    whatever the coordinates and the time stamps of the touches (NaN and the
    infinities included), the target scale is NaN or has a clear sign bit,
    and so has every pinch distance held in the gesture state, if this was so
    at the start (as it is after the constructor). *)
Theorem run_scale_not_negative (evs : list (HostEvent float))
    (c : Component float ItemT) :
  scale_ok c = true ->
  scale_ok (run evs c) = true /\ not_negative (scaleTarget (run evs c)) = true.
Proof.
  intros H.
  assert (K : scale_ok (run evs c) = true).
  { revert c H. induction evs as [|ev evs IH]; intros c H; cbn.
    - exact H.
    - apply IH, scale_ok_dispatch, H. }
  split; [exact K | apply scale_ok_elim, K].
Qed.

End ScaleSign.

(** The pinch begun while the reset runs, from the constructor. *)
Lemma run_scale_not_negative_witness :
  scale_ok (run pinch_during_reset gallery) = true /\
  not_negative (scaleTarget (run pinch_during_reset gallery)) = true.
Proof.
  apply (@run_scale_not_negative nat pinch_during_reset gallery).
  reflexivity.
Defined.

(** ** A target scale that is NaN *)

Section NaNScale.

Variable ItemT : Type.
Local Open Scope float_scope.

Lemma mul_nan_l (a b : float) :
  PrimFloat.is_nan a = true -> PrimFloat.is_nan (a * b) = true.
Proof.
  rewrite !F64Facts.is_nan_spec, FloatAxioms.mul_spec.
  destruct (Prim2SF a); try discriminate. intros _.
  destruct (Prim2SF b); reflexivity.
Qed.

Lemma ltb_nan_r (a b : float) :
  PrimFloat.is_nan b = true -> (a <? b) = false.
Proof.
  rewrite F64Facts.is_nan_spec, FloatAxioms.ltb_spec. unfold SFltb.
  destruct (Prim2SF b); try discriminate. intros _.
  destruct (Prim2SF a); reflexivity.
Qed.

Lemma nan_doChangeScale (d : Position float) (r : float)
    (p : option (Position float)) (c : Component float ItemT) :
  PrimFloat.is_nan (scaleTarget c) = true ->
  PrimFloat.is_nan (scaleTarget (doChangeScale d r p c)) = true.
Proof. apply mul_nan_l. Qed.

Lemma nan_doChildAnimation (t : float) (cb : Callback) (o : bool)
    (c : Component float ItemT) :
  PrimFloat.is_nan (scaleTarget c) = true ->
  PrimFloat.is_nan (scaleTarget (doChildAnimation t cb o c)) = true.
Proof.
  intros H. unfold doChildAnimation. destruct (_ && _); [exact H|].
  destruct o; apply F64Clamp.max_nan_l, F64Clamp.min_nan_l, H.
Qed.

Lemma nan_doChildStateChange (to : ChildState float)
    (c : Component float ItemT) :
  scaleTarget (doChildStateChange to c) = scaleTarget c.
Proof.
  unfold doChildStateChange.
  destruct (negb (ChildStatus_eqb (status (childState c)) (status to)));
    [ destruct (negb (ChildStatus_eqb (status to) SINGLE));
      destruct (ChildStatus_eqb (status to) DOUBLE) | ]; reflexivity.
Qed.

Lemma nan_onMoveTouchResponder (e : GestureResponderEvent float)
    (c : Component float ItemT) :
  PrimFloat.is_nan (scaleTarget c) = true ->
  PrimFloat.is_nan (scaleTarget (onMoveTouchResponder e c)) = true.
Proof.
  intros H. unfold onMoveTouchResponder.
  destruct (touches (nativeEvent e)) as [|t0 [|t1 [|t2 l]]]; cbv zeta;
    try (rewrite nan_doChildStateChange; exact H).
  - destruct (childState c) as [i l ts lt|i l ts lt|lt];
      rewrite nan_doChildStateChange; try exact H.
    unfold doChildMove. destruct (_ && _); [|exact H].
    apply nan_doChildAnimation, nan_doChangeScale, H.
  - destruct (childState c) as [i l ts lt|i l ts lt|lt];
      rewrite nan_doChildStateChange; try exact H.
    unfold doChildPinchMove.
    apply nan_doChildAnimation, nan_doChangeScale, H.
Qed.

Lemma nan_onStartTouchResponder (e : GestureResponderEvent float)
    (c : Component float ItemT) :
  PrimFloat.is_nan (scaleTarget c) = true ->
  PrimFloat.is_nan (scaleTarget (onStartTouchResponder e c)) = false ->
  (timeStamp e - lastTouch (childState c) <? DOUBLE_TOUCH_THRES) = true /\
  status (childState c) <> SINGLE /\ childDoingZoom c = true.
Proof.
  intros H. unfold onStartTouchResponder.
  change (@nlt float F64.number) with PrimFloat.ltb.
  change (@nsub float F64.number) with PrimFloat.sub.
  destruct (_ <? DOUBLE_TOUCH_THRES); cbv zeta.
  - cbn [childState set_childState]. rewrite status_set_lastTouch.
    destruct (status (childState c)) eqn:Es; cbn [ChildStatus_eqb negb].
    + cbn [scaleTarget set_childState]. congruence.
    + unfold doChildDoubleTouch. cbn [childDoingZoom set_childState].
      destruct (childDoingZoom c); cbn [negb].
      * intros _. repeat split. discriminate.
      * intros H'. exfalso. revert H'.
        rewrite nan_doChildAnimation; [discriminate|].
        apply nan_doChangeScale. exact H.
    + unfold doChildDoubleTouch. cbn [childDoingZoom set_childState].
      destruct (childDoingZoom c); cbn [negb].
      * intros _. repeat split. discriminate.
      * intros H'. exfalso. revert H'.
        rewrite nan_doChildAnimation; [discriminate|].
        apply nan_doChangeScale. exact H.
  - rewrite nan_doChildStateChange. cbn [scaleTarget set_childState].
    congruence.
Qed.

(** X14.  NaN stays. A target scale that is NaN (two fingers landing on one
    point, C3) is NaN after every host event but one: a touch-down with one
    finger delivered to [onResponderStart] within [DOUBLE_TOUCH_THRES] of the
    recorded one, while zoom is in progress and the state is not SINGLE,
    which resets. Lifting the fingers does not reset: NaN is not between
    [MIN_ZOOM_RESET] and [MAX_ZOOM_RESET]. *)
Theorem dispatch_nan_scale (ev : HostEvent float) (c : Component float ItemT) :
  PrimFloat.is_nan (scaleTarget c) = true ->
  PrimFloat.is_nan (scaleTarget (dispatch ev c)) = false ->
  match ev with
  | ResponderStart e =>
      length (touches (nativeEvent e)) = 1%nat /\
      (timeStamp e - lastTouch (childState c) <? DOUBLE_TOUCH_THRES) = true /\
      status (childState c) <> SINGLE /\ childDoingZoom c = true
  | _ => False
  end.
Proof.
  intros H H'.
  assert (K : forall c' : Component float ItemT,
             PrimFloat.is_nan (scaleTarget c') = true ->
             dispatch ev c = c' -> False)
    by (intros c' Hc' E; rewrite E, Hc' in H'; discriminate).
  destruct ev as [e|e|e|e|e|e|e| | | |k];
    cbn [dispatch snd onMoveShouldSetResponder
         onResponderTerminationRequest
         onStartShouldSetResponderCapture
         onMoveShouldSetResponderCapture] in *;
    try (eapply K; [exact H | reflexivity]).
  - revert H'. unfold onStartShouldSetResponder. cbv zeta. cbn [snd].
    rewrite nan_doChildStateChange.
    destruct (negb (childDoingZoom c)) eqn:Ez; cbn [andb].
    + destruct (_ =? _)%nat; [|congruence].
      intros H'. destruct (nan_onStartTouchResponder e c H H') as (_ & _ & Hz).
      rewrite Hz in Ez. discriminate.
    + congruence.
  - revert H'. unfold onResponderStart.
    destruct (length (touches (nativeEvent e)) =? 1)%nat eqn:El.
    + apply Nat.eqb_eq in El. intros H'. split; [exact El|].
      apply nan_onStartTouchResponder; assumption.
    + rewrite nan_onMoveTouchResponder; [discriminate | exact H].
  - eapply K; [|reflexivity]. apply nan_onMoveTouchResponder, H.
  - revert H'. unfold onResponderRelease. cbv zeta.
    rewrite nan_doChildStateChange.
    change (@nlt float F64.number) with PrimFloat.ltb.
    rewrite (ltb_nan_r MIN_ZOOM_RESET _ H). cbn [andb].
    rewrite nan_doChildStateChange. congruence.
  - eapply K; [|reflexivity]. unfold onResponderReject.
    rewrite nan_doChildStateChange. exact H.
  - eapply K; [|reflexivity]. unfold onResponderTerminate.
    rewrite nan_doChildStateChange. exact H.
  - eapply K; [|reflexivity].
    destruct (nth_error _ k) as [[]|]; exact H.
Qed.

End NaNScale.

(** Two fingers land on one point of the gallery and are lifted: the target
    scale is NaN and the release leaves it so; a tap and, 100 ms later, a
    second tap reset it. *)
Lemma dispatch_nan_scale_witness :
  let c := run (coincident_fingers
                ++ [ResponderMove (pinch 1026 150 150); ResponderRelease;
                    ResponderStart (tap 2000 150 150); ResponderRelease])
             gallery in
  let e := tap 2100 150 150 in
  length (touches (nativeEvent e)) = 1%nat /\
  (timeStamp e - lastTouch (childState c) <? DOUBLE_TOUCH_THRES) = true /\
  status (childState c) <> SINGLE /\ childDoingZoom c = true.
Proof.
  intros c e.
  apply (@dispatch_nan_scale nat (ResponderStart e) c); reflexivity.
Defined.

(** ** Paging *)

Section PagingFacts.

Variable ItemT : Type.
Local Open Scope Q_scope.

(** [Math.round] returns [i] on the numbers within a half of [i], the upper
    half excluded. *)
Lemma Math_round_spec (q : Q) (i : Z) :
  inject_Z i - (1 # 2) <= q -> q < inject_Z i + (1 # 2) -> Math_round q = i.
Proof.
  intros H1 H2. unfold Math_round.
  set (f := Qfloor (q + (1 # 2))).
  assert (L : inject_Z f <= q + (1 # 2)) by apply Qfloor_le.
  assert (U : q + (1 # 2) < inject_Z (f + 1)) by apply Qlt_floor.
  rewrite inject_Z_plus in U. change (inject_Z 1) with 1 in U.
  assert (A : inject_Z f < inject_Z i + 1) by lra.
  assert (B : inject_Z i < inject_Z f + 1) by lra.
  change 1 with (inject_Z 1) in A, B.
  rewrite <- inject_Z_plus in A, B.
  rewrite <- Zlt_Qlt in A, B. lia.
Qed.



(** X17.  A refresh with the default [onRefresh]. A request made from a state
    that was not refreshing (the end of the list reached, its start, or a
    pull) is answered with the data and the page as they are:
    [componentDidUpdate] scrolls to the current page and clears [refreshing],
    so that the list can be scrolled again, and the update this makes calls
    [onRefresh] no more. *)
Theorem componentDidUpdate_default (c : Component Q ItemT)
    (prevState : SwiperViewState ItemT) (r : RefreshStatus) :
  refreshing prevState = None ->
  refreshing (state c) = Some r ->
  let c' := componentDidUpdate (@default_onRefresh ItemT) prevState c in
  state c' = {| refreshing := None; data := data (state c);
                currentIndex := currentIndex (state c) |} /\
  scrollEnabled c' = true /\
  effects c' = ScrollToIndex (currentIndex (state c)) false :: effects c /\
  componentDidUpdate_call (state c) c' = None.
Proof.
  intros Hp Hr c'. unfold c', componentDidUpdate, componentDidUpdate_call.
  rewrite Hp, Hr. cbn. rewrite Nat.eqb_refl. cbn. auto.
Qed.

(** X18.  The end of a refresh, whatever [onRefresh] resolves to. New data of
    the length of the old end it at once. New data of another length leave
    the list locked ([scrollEnabled] false) until the FlatList reports a
    content as wide as the new data are long, which ends it. Either way the
    list is scrolled, without animation, to the new index, and holds the new
    data. The update that ends a refresh does not start another. *)
Theorem refresh_ends (c : Component Q ItemT) (newIndex : Z)
    (newData : list ItemT) (r : RefreshStatus) :
  0 < width (viewPort c) ->
  refreshing (state c) = Some r ->
  let c1 := componentDidUpdate_resume (newIndex, newData) c in
  let c2 := onContentSizeChange
              (width (viewPort c) * inject_Z (Z.of_nat (length newData))) c1 in
  data (state c1) = newData /\ currentIndex (state c1) = newIndex /\
  componentDidUpdate_call (state c) c1 = None /\
  (length newData = length (data (state c)) ->
     scrollEnabled c1 = true /\
     effects c1 = ScrollToIndex newIndex false :: effects c) /\
  (length newData <> length (data (state c)) ->
     scrollEnabled c1 = false /\ effects c1 = effects c /\
     scrollEnabled c2 = true /\
     data (state c2) = newData /\ currentIndex (state c2) = newIndex /\
     effects c2 = ScrollToIndex newIndex false :: effects c /\
     componentDidUpdate_call (state c1) c2 = None).
Proof.
  intros Hw Hr c1 c2.
  assert (R : Math_round
                (width (viewPort c) * inject_Z (Z.of_nat (length newData))
                 / width (viewPort c))
              = Z.of_nat (length newData)).
  { apply Math_round_spec.
    - apply Qle_shift_div_l; [exact Hw|]. nra.
    - apply Qlt_shift_div_r; [exact Hw|]. nra. }
  unfold c2, c1, componentDidUpdate_resume.
  destruct (length newData =? length (data (state c)))%nat eqn:E.
  - apply Nat.eqb_eq in E. unfold componentDidUpdate_call. rewrite Hr.
    cbn. repeat split; auto; congruence.
  - apply Nat.eqb_neq in E. unfold componentDidUpdate_call, scrollEnabled.
    rewrite Hr. cbn [setState state refreshing data currentIndex effects].
    repeat split; try congruence;
      unfold onContentSizeChange;
      cbn [setState state refreshing data currentIndex effects viewPort ndiv
           Exact.number];
      rewrite R, Z.eqb_refl; reflexivity.
Qed.

End PagingFacts.

Section PagingWitnesses.

Local Open Scope Q_scope.



(** A pull to refresh, with the default [onRefresh]. *)
Lemma componentDidUpdate_default_witness :
  let c := construct (num := Q) 300 300 [1%nat; 2%nat] 1%Z in
  let c' := componentDidUpdate (@default_onRefresh nat) (state c)
              (FlatList_onRefresh c) in
  state c' = state c /\
  scrollEnabled c' = true /\
  effects c' = [ScrollToIndex 1 false] /\
  componentDidUpdate_call (state (FlatList_onRefresh c)) c' = None.
Proof.
  intros c c'.
  apply (@componentDidUpdate_default nat (FlatList_onRefresh c) (state c) ALL);
    reflexivity.
Defined.

(** A refresh at the end of two pages that resolves to three pages, shown
    at page 2. *)
Lemma refresh_ends_witness :
  let c := setState {| refreshing := Some END; data := [1%nat; 2%nat];
                       currentIndex := 1%Z |}
             (construct (num := Q) 300 300 [1%nat; 2%nat] 0%Z) in
  let c1 := componentDidUpdate_resume (2%Z, [1%nat; 2%nat; 3%nat]) c in
  let c2 := onContentSizeChange 900 c1 in
  scrollEnabled c1 = false /\ scrollEnabled c2 = true /\
  state c2 = {| refreshing := None; data := [1%nat; 2%nat; 3%nat];
                currentIndex := 2%Z |} /\
  effects c2 = [ScrollToIndex 2 false].
Proof.
  intros c c1 c2.
  destruct (@refresh_ends nat c 2%Z [1%nat; 2%nat; 3%nat] END
              eq_refl eq_refl) as (_ & _ & _ & _ & H).
  destruct H as (H1 & _ & H2 & _ & _ & H3 & _); [discriminate|].
  repeat split; assumption.
Defined.

End PagingWitnesses.

(** ** Keys *)

Section KeyFacts.

Variable ItemT : Type.
Variable item_id : ItemT -> option String.string.

Lemma toString_inj (i j : nat) : toString i = toString j -> i = j.
Proof.
  unfold toString. intros H.
  apply DecimalNat.Unsigned.to_uint_inj.
  assert (K : Some (Nat.to_uint i) = Some (Nat.to_uint j)).
  { rewrite <- !DecimalString.NilEmpty.usu. now rewrite H. }
  now inversion K.
Qed.

(** X19.  Items without an [id] get keys that tell their positions apart: at
    two different indices, two of them never have the same key. *)
Theorem keyExtractor_unique (a b : ItemT) (i j : nat) :
  hasId item_id a = false -> hasId item_id b = false -> i <> j ->
  keyExtractor item_id a i <> keyExtractor item_id b j.
Proof.
  unfold hasId, keyExtractor.
  destruct (item_id a); [discriminate|].
  destruct (item_id b); [discriminate|].
  intros _ _ Hij H. apply Hij, toString_inj, H.
Qed.

End KeyFacts.

(** Two copies of one image, the items being numbers, none with an [id]. *)
Lemma keyExtractor_unique_witness :
  let item_id := fun _ : nat => @None String.string in
  keyExtractor item_id 7%nat 3 <> keyExtractor item_id 7%nat 12.
Proof.
  intros item_id.
  apply (@keyExtractor_unique nat item_id 7%nat 7%nat 3%nat 12%nat);
    [reflexivity | reflexivity | discriminate].
Defined.
